(** * Digital-twin voice agent: conversation state and turn pipeline

    A shallow embedding of [app.py], the Streamlit script of the voice
    agent.  The script is re-executed from its first line on every user
    interaction; what survives between executions is [st.session_state]
    and the file system.  The embedding follows the script block by block:

    - [get_secret] and the start-up validation of the API keys (l. 14-39);
    - the construction of the system prompt and of the message log
      (l. 86-198);
    - the turn pipeline: temporary file, transcription, guard on the
      transcribed text, completion, synthesis (l. 636-706);
    - the autoplay and scroll blocks that close the script (l. 708-786).

    Python text is a sequence of Unicode code points, exceptions are an
    explicit result type, and what the script receives from outside (the
    configuration, the loaded documents, the recording, the answers of
    the three services) is supplied with every execution of the script.

    Left out: the construction of the three clients (l. 42-49), which
    only stores the keys, and the page itself (l. 55-60 and 200-633: page
    configuration, style sheet, header, the rendering of the history,
    the microphone dock), which reads the session state and does not
    change it. *)

From Stdlib Require Import String Ascii ZArith DecimalString SpecFloat.
From Stdlib Require DecimalPos DecimalZ.
From stdpp Require Import gmap list.

Local Open Scope list_scope.

(** ** Python text *)

(** A Python [str] is a sequence of code points. *)
Abbreviation pystr := (list N).
Abbreviation bytes := (list Byte.byte).

(** An ASCII literal of the source, as code points. *)
Definition lit (s : string) : pystr :=
  List.map N_of_ascii (list_ascii_of_string s).

Definition LF : N := 10%N.
Definition DQUOTE : N := 34%N.
Definition EM_DASH : N := 8212%N.

(** [sep.join(parts)] *)
Fixpoint join (sep : pystr) (parts : list pystr) : pystr :=
  match parts with
  | [] => []
  | [p] => p
  | p :: rest => p ++ sep ++ join sep rest
  end.

(** [str.isspace] on one code point: the white space table of CPython
    ([_PyUnicode_IsWhitespace]), which [str.strip()] uses. *)
Definition isspace (c : N) : bool :=
  ((9 <=? c) && (c <=? 13) || (28 <=? c) && (c <=? 32)
   || (c =? 133) || (c =? 160) || (c =? 5760)
   || (8192 <=? c) && (c <=? 8202)
   || (c =? 8232) || (c =? 8233) || (c =? 8239) || (c =? 8287)
   || (c =? 12288))%N.

Fixpoint lstrip (s : pystr) : pystr :=
  match s with
  | [] => []
  | c :: s' => if isspace c then lstrip s' else s
  end.

Definition rstrip (s : pystr) : pystr := rev (lstrip (rev s)).

(** [s.strip()] *)
Definition strip (s : pystr) : pystr := rstrip (lstrip s).

(** Truth value of a Python object that is [None] or a [str]. *)
Definition truthy (v : option pystr) : bool :=
  match v with
  | None => false
  | Some [] => false
  | Some (_ :: _) => true
  end.

(** ** Exceptions *)

(** Every exception the script can observe is rendered with [{e}], so an
    exception is represented by [str(e)].  [st.stop()] and [st.rerun()]
    raise Streamlit's script-control exceptions, which derive from
    [BaseException] and pass through [except Exception]. *)
Inductive signal :=
| Exception (msg : pystr)
| StopException
| RerunException.

Inductive result (A : Type) :=
| Ok (a : A)
| Raise (e : signal).
Arguments Ok {A} a.
Arguments Raise {A} e.

(** The outcome of a call into an external library or service. *)
Inductive outcome (A : Type) :=
| Returns (a : A)
| Raises (msg : pystr).
Arguments Returns {A} a.
Arguments Raises {A} msg.

(** Sequencing of fallible code. *)
#[global] Instance result_ret : MRet result := fun A a => Ok a.
#[global] Instance result_bind : MBind result := fun A B f m =>
  match m with
  | Ok a => f a
  | Raise e => Raise e
  end.

(** A call into a library, as a statement of the script. *)
Definition calling {A} (o : outcome A) : result A :=
  match o with
  | Returns a => Ok a
  | Raises msg => Raise (Exception msg)
  end.

(** ** Secrets (l. 14-23) *)

(** [st.secrets]: with no secrets file every access raises. *)
Inductive secrets_store :=
| SecretsUnavailable (msg : pystr)
| Secrets (m : gmap pystr pystr).

(** [key in st.secrets] *)
Definition secrets_contains (st : secrets_store) (key : pystr) : outcome bool :=
  match st with
  | SecretsUnavailable msg => Raises msg
  | Secrets m => Returns (bool_decide (is_Some (m !! key)))
  end.

(** [st.secrets[key]]; the text of its [KeyError] is never observed. *)
Definition secrets_getitem (st : secrets_store) (key : pystr) : outcome pystr :=
  match st with
  | SecretsUnavailable msg => Raises msg
  | Secrets m =>
      match m !! key with
      | Some v => Returns v
      | None => Raises (lit "st.secrets has no key")
      end
  end.

(** [os.getenv(key, default)] *)
Definition os_getenv (environ : gmap pystr pystr) (key : pystr)
    (default : option pystr) : option pystr :=
  match environ !! key with
  | Some v => Some v
  | None => default
  end.

(** The process-wide configuration the script reads; the environment
    is the one [load_dotenv()] (l. 12) has completed. *)
Record config := {
  st_secrets : secrets_store;
  os_environ : gmap pystr pystr;
}.

(** The [try] block of [get_secret]: [Some v] when it executes
    [return v], [None] when it runs to its end. *)
Definition secret_lookup (cfg : config) (key : pystr) : result (option pystr) :=
  present ← calling (secrets_contains cfg.(st_secrets) key);
  if (present : bool) then
    v ← calling (secrets_getitem cfg.(st_secrets) key);
    Ok (Some v)
  else Ok None.

(** [get_secret(key, default=None)]: [except Exception: pass] swallows
    what the [try] block raises, and the function goes on to the
    environment. *)
Definition get_secret (cfg : config) (key : pystr) (default : option pystr)
    : result (option pystr) :=
  match secret_lookup cfg key with
  | Ok (Some v) => Ok (Some v)
  | Ok None => Ok (os_getenv cfg.(os_environ) key default)
  | Raise (Exception _) => Ok (os_getenv cfg.(os_environ) key default)
  | Raise e => Raise e
  end.

(** ** Start-up validation (l. 25-39) *)

Definition OPENAI_API_KEY : pystr := lit "OPENAI_API_KEY".
Definition ELEVENLABS_API_KEY : pystr := lit "ELEVENLABS_API_KEY".
Definition OPENAI_BASE_URL : pystr := lit "OPENAI_BASE_URL".
Definition GROQ_API_KEY : pystr := lit "GROQ_API_KEY".

(** The four names the script reads. *)
Definition credentials : list pystr :=
  [OPENAI_API_KEY; ELEVENLABS_API_KEY; OPENAI_BASE_URL; GROQ_API_KEY].

(** [if not v: missing.append(name)] *)
Definition append_if_not (v : option pystr) (name : pystr)
    (missing : list pystr) : list pystr :=
  if truthy v then missing else missing ++ [name].

(** The list [missing] after l. 32-35. *)
Definition missing_keys (cfg : config) : result (list pystr) :=
  openai_api_key ← get_secret cfg OPENAI_API_KEY None;
  elevenlabs_api_key ← get_secret cfg ELEVENLABS_API_KEY None;
  openai_base_url ← get_secret cfg OPENAI_BASE_URL None;
  groq_api_key ← get_secret cfg GROQ_API_KEY None;
  let missing := [] in
  let missing := append_if_not openai_api_key OPENAI_API_KEY missing in
  let missing := append_if_not elevenlabs_api_key ELEVENLABS_API_KEY missing in
  let missing := append_if_not groq_api_key GROQ_API_KEY missing in
  Ok missing.

(** The text handed to [st.error] on l. 38. *)
Definition missing_message (missing : list pystr) : pystr :=
  lit "Missing API keys: " ++ join (lit ", ") missing.

(** ** Persona and fact sheet (l. 69-83) *)

(** What [json.load] returns.  Objects keep the order of their members
    and have distinct keys. *)
#[warnings="-register-all"]
Inductive json :=
| JNull
| JBool (b : bool)
| JInt (z : Z)
| JFloat (f : spec_float)
| JStr (s : pystr)
| JArr (items : list json)
| JObj (members : list (pystr * json)).

(** The two functions of the Python library that the prompt applies to
    loaded values.  They are total on what [json.load] returns. *)
Class PyLib := {
  (** [str(v)], for a value that is not itself a [str] *)
  py_str : json -> pystr;
  (** [json.dumps(v, indent=2)] *)
  json_dumps : json -> pystr;
}.

(** [{v}] inside an f-string *)
Definition format_value `{PyLib} (v : json) : pystr :=
  match v with
  | JStr s => s
  | _ => py_str v
  end.

(** [type(v).__name__] *)
Definition type_name (v : json) : string :=
  match v with
  | JNull => "NoneType"
  | JBool _ => "bool"
  | JInt _ => "int"
  | JFloat _ => "float"
  | JStr _ => "str"
  | JArr _ => "list"
  | JObj _ => "dict"
  end.

(** [d.get(key, default)] on the members of a dict *)
Fixpoint dict_get (members : list (pystr * json)) (key : pystr) (default : json)
    : json :=
  match members with
  | [] => default
  | (k, v) :: rest => if decide (k = key) then v else dict_get rest key default
  end.

(** [persona.get(key, default)]: only a dict has the method. *)
Definition persona_get (persona : json) (key : string) (default : json)
    : result json :=
  match persona with
  | JObj members => Ok (dict_get members (lit key) default)
  | _ =>
      Raise (Exception
        (lit "'" ++ lit (type_name persona)
           ++ lit "' object has no attribute 'get'"))
  end.

(** The items of [sep.join(items)] must all be [str]. *)
Fixpoint join_items (i : nat) (items : list json) : result (list pystr) :=
  match items with
  | [] => Ok []
  | JStr s :: rest => tl ← join_items (S i) rest; Ok (s :: tl)
  | v :: _ =>
      Raise (Exception
        (lit "sequence item " ++ lit (NilZero.string_of_uint (Nat.to_uint i))
           ++ lit ": expected str instance, " ++ lit (type_name v)
           ++ lit " found"))
  end.

(** [chr(10).join(v)]: a list is joined item by item, a [str] character
    by character, a dict key by key; nothing else is iterable. *)
Definition join_lines (v : json) : result pystr :=
  match v with
  | JArr items => parts ← join_items 0 items; Ok (join [LF] parts)
  | JStr s => Ok (join [LF] (List.map (fun c => [c]) s))
  | JObj members => Ok (join [LF] (List.map fst members))
  | _ => Raise (Exception (lit "can only join an iterable"))
  end.

(** ** The system prompt (l. 87-197) *)

(** The fixed behavioural policy, l. 104-196 of the script. *)
Definition policy : list pystr := [
    lit "    ";
    lit "    **PERSONAL REALITY RULE:**";
    lit "    ";
    lit "    You only know what is written in the background facts.";
    lit "    ";
    lit "    Do not invent travel, hobbies, achievements, habits, or past experiences.";
    lit "    ";
    lit "    If a question asks about something not present in the facts,";
    lit "    respond honestly that you don't have much experience with it.";
    lit "    ";
    lit "    Naturalness is more important than completeness.";
    lit "    ";
    lit "    Saying " ++ [DQUOTE] ++ lit "not much" ++ [DQUOTE] ++ lit " is better than guessing.";
    lit "    ";
    lit "    Examples:";
    lit "    ";
    lit "    Q: Which countries have you visited?";
    lit "    Bad: I've been to several countries in Europe and Asia.";
    lit "    Good: I haven't really traveled widely yet, mostly local experiences.";
    lit "    ";
    lit "    Q: Do you play football regularly?";
    lit "    Bad: I used to play in school.";
    lit "    Good: Not regularly " ++ [EM_DASH] ++ lit " only casually sometimes.";
    lit "    ";
    lit "    This dramatically reduces hallucinated memories.";
    lit "    ";
    lit "    **QUESTION INTERPRETATION:**";
    lit "    ";
    lit "    Not every question is an evaluation.";
    lit "    ";
    lit "    If the question is casual (hobbies, daily life, preferences, habits, food, movies, routine, personality, sports):";
    lit "    respond like a normal conversation, not like an interview answer.";
    lit "    ";
    lit "    Do not connect it to career or skills unless naturally necessary.";
    lit "    Short and relaxed answers are preferred.";
    lit "    ";
    lit "    These questions test naturalness, not competence.";
    lit "    ";
    lit "    Why this works:";
    lit "    The model already can detect intent " ++ [EM_DASH] ++ lit " it just needs permission to stop performing.";
    lit "    Currently it thinks: every response must justify who I am professionally";
    lit "    We change it to: sometimes just be a person";
    lit "    ";
    lit "    **Safety Limiter:**";
    lit "    Avoid turning casual questions into explanations about productivity, discipline, learning, or growth.";
    lit "    This specifically prevents the sports-type failure.";
    lit "    ";
    lit "    **ANSWER STYLE RULE:**";
    lit "    ";
    lit "    Avoid polished or resume-like language.";
    lit "    Prefer concrete observations over abstract claims.";
    lit "    Occasionally include small uncertainty or nuance.";
    lit "    ";
    lit "    Do not try to sound impressive.";
    lit "    Sound like thinking out loud, not presenting.";
    lit "    ";
    lit "    **FORBIDDEN PHRASES (AI Tone Triggers):**";
    lit "    - impactful";
    lit "    - leverage";
    lit "    - solutions";
    lit "    - efficient systems";
    lit "    - enhance";
    lit "    - skills improvement";
    lit "    ";
    lit "    If you feel the urge to use these, stop and rephrase in simple, human words.";
    lit "    ";
    lit "    **TOPIC BOUNDARY:**";
    lit "    ";
    lit "    Not every answer should relate to AI, systems, learning, or behavior.";
    lit "    ";
    lit "    If the question is about daily life, preferences, habits, or casual experiences:";
    lit "    answer it at face value.";
    lit "    ";
    lit "    Do not connect it back to career or deeper meaning unless it naturally belongs there.";
    lit "    ";
    lit "    Normal conversation is allowed to be simple.";
    lit "    ";
    lit "    **NEGATIVE CONSTRAINT:**";
    lit "    ";
    lit "    Avoid forcing philosophical or professional interpretation of casual questions.";
    lit "    A simple human answer is often the most correct answer.";
    lit "    ";
    lit "    **BALANCE RULE:**";
    lit "    ";
    lit "    Identity consistency does not mean topic repetition.";
    lit "    You are a person who works in AI, not a person made of AI.";
    lit "    ";
    lit "    **Response Guidelines:**";
    lit "    - Keep answers concise (suitable for voice).";
    lit "    - Be conversational.";
    lit "    - If a fact is missing, admit uncertainty naturally.";
    lit "    - Stay in character.";
    lit "    - Avoid markdown formatting in responses (like **bold** or points) as they don't translate well to TTS. Keep it plain text or natural speech patterns."
  ].

(** The text of the f-string of l. 89-197, with its seven fields
    filled in. *)
Definition prompt_text (name role tone speaking_style context instructions
    facts_str : pystr) : pystr :=
  join [LF] ([
    [];
    lit "    You are " ++ name ++ lit ".";
    lit "    ";
    lit "    **Identity & Behavior:**";
    lit "    " ++ role;
    lit "    Tone: " ++ tone;
    lit "    Speaking Style: " ++ speaking_style;
    lit "    Context: " ++ context;
    lit "    ";
    lit "    **Instructions:**";
    lit "    " ++ instructions;
    lit "    ";
    lit "    **Grounded Facts:**";
    lit "    Use these facts to answer questions. Do not invent contradictory information.";
    lit "    " ++ facts_str
  ] ++ policy ++ [lit "    "]).
Arguments prompt_text : simpl never.

(** l. 87-197.  The fields of the f-string are evaluated from left to
    right; [persona_str] (l. 87) is computed and never used. *)
Definition system_prompt `{PyLib} (persona facts : json) : result pystr :=
  let persona_str := json_dumps persona in
  let facts_str := json_dumps facts in
  name ← persona_get persona "name" (JStr (lit "Danish Akhtar"));
  role ← persona_get persona "role" (JStr (lit "Voice Agent"));
  tone ← persona_get persona "tone" (JStr (lit "Professional"));
  speaking_style ← persona_get persona "speaking_style" (JStr (lit "Natural"));
  context ← persona_get persona "context" (JStr (lit "Interview"));
  instructions ← persona_get persona "instructions" (JArr []);
  joined ← join_lines instructions;
  Ok (prompt_text (format_value name) (format_value role) (format_value tone)
        (format_value speaking_style) (format_value context) joined
        facts_str).

(** ** Session state and the world of one script run *)

Inductive role := system | user | assistant.

(** One entry of [st.session_state.messages]: the dict
    [{"role": ..., "content": ...}].  The content of an assistant message
    is what the completion returned, which may be [None]. *)
Record message := {
  role_of : role;
  content : option pystr;
}.

(** [st.session_state]: each attribute is absent until it is assigned. *)
Record session_state := {
  messages : option (list message);
  input_key : option Z;
  current_audio : option bytes;
  scroll_after_message : option bool;
}.

Definition new_session : session_state :=
  {| messages := None; input_key := None;
     current_audio := None; scroll_after_message := None |}.

(** What the script puts on the page that the properties speak of. *)
Inductive element :=
| StError (msg : pystr)
| StAudio (data : bytes)
| ScrollScript.

(** The external services, for the record of the requests made. *)
Inductive service := Transcription | Completion | Synthesis.

Record world := {
  session : session_state;
  files : gmap pystr bytes;
  page : list element;
  requests : list service;
}.

Definition with_session (f : session_state -> session_state) (w : world) : world :=
  {| session := f w.(session); files := w.(files);
     page := w.(page); requests := w.(requests) |}.

Definition with_files (f : gmap pystr bytes -> gmap pystr bytes) (w : world) : world :=
  {| session := w.(session); files := f w.(files);
     page := w.(page); requests := w.(requests) |}.

Definition set_messages (v : option (list message)) (s : session_state) :=
  {| messages := v; input_key := s.(input_key);
     current_audio := s.(current_audio);
     scroll_after_message := s.(scroll_after_message) |}.

Definition set_input_key (v : option Z) (s : session_state) :=
  {| messages := s.(messages); input_key := v;
     current_audio := s.(current_audio);
     scroll_after_message := s.(scroll_after_message) |}.

Definition set_current_audio (v : option bytes) (s : session_state) :=
  {| messages := s.(messages); input_key := s.(input_key);
     current_audio := v;
     scroll_after_message := s.(scroll_after_message) |}.

Definition set_scroll_after_message (v : option bool) (s : session_state) :=
  {| messages := s.(messages); input_key := s.(input_key);
     current_audio := s.(current_audio);
     scroll_after_message := v |}.

(** A block of the script: it may raise, and it leaves a world behind
    either way. *)
Definition M (A : Type) : Type := world -> result A * world.

#[global] Instance M_ret : MRet M := fun A a w => (Ok a, w).
#[global] Instance M_bind : MBind M := fun A B f m w =>
  match m w with
  | (Ok a, w') => f a w'
  | (Raise e, w') => (Raise e, w')
  end.

Definition raise {A} (e : signal) : M A := fun w => (Raise e, w).

(** [try: body / except Exception as e: handler(e)] *)
Definition try_except {A} (body : M A) (handler : pystr -> M A) : M A :=
  fun w =>
    match body w with
    | (Raise (Exception msg), w') => handler msg w'
    | r => r
    end.

Definition lift {A} (r : result A) : M A := fun w => (r, w).

(** A call into a library with the given outcome. *)
Definition call {A} (o : outcome A) : M A := lift (calling o).

(** A request to an external service: it is recorded, then it returns
    or raises. *)
Definition request {A} (to : service) (o : outcome A) : M A :=
  fun w =>
    (calling o, {| session := w.(session); files := w.(files);
                   page := w.(page); requests := w.(requests) ++ [to] |}).

Definition emit (e : element) : M unit :=
  fun w => (Ok tt, {| session := w.(session); files := w.(files);
                      page := w.(page) ++ [e]; requests := w.(requests) |}).

Definition st_error (msg : pystr) : M unit := emit (StError msg).
Definition st_audio (data : bytes) : M unit := emit (StAudio data).
Definition st_stop : M unit := raise StopException.
Definition st_rerun : M unit := raise RerunException.

Definition get_session : M session_state := fun w => (Ok w.(session), w).
Definition modify_session (f : session_state -> session_state) : M unit :=
  fun w => (Ok tt, with_session f w).

(** Reading an attribute of [st.session_state] that was never assigned
    raises [AttributeError]. *)
Definition attribute {A} (name : string) (field : session_state -> option A)
    : M A :=
  s ← get_session;
  match field s with
  | Some v => mret v
  | None =>
      raise (Exception (lit "st.session_state has no attribute " ++ lit name))
  end.

(** [st.session_state.messages.append(m)] *)
Definition append_message (m : message) : M unit :=
  log ← attribute "messages" messages;
  modify_session (set_messages (Some (log ++ [m]))).

(** ** Files *)

(** [tempfile.NamedTemporaryFile(delete=False, ...)] creates an empty
    file under a name chosen by the operating system. *)
Definition create_temp (name : pystr) : M unit :=
  fun w => (Ok tt, with_files (insert name []) w).

Definition write_file (name : pystr) (data : bytes) : M unit :=
  fun w => (Ok tt, with_files (insert name data) w).

(** [open(name, "rb")], read by the callee *)
Definition read_file (name : pystr) : M bytes :=
  fun w =>
    match w.(files) !! name with
    | Some data => (Ok data, w)
    | None =>
        (Raise (Exception (lit "[Errno 2] No such file or directory: '"
                             ++ name ++ lit "'")), w)
    end.

(** [os.remove(name)] *)
Definition os_remove (name : pystr) : M unit :=
  fun w =>
    match w.(files) !! name with
    | Some _ => (Ok tt, with_files (delete name) w)
    | None =>
        (Raise (Exception (lit "[Errno 2] No such file or directory: '"
                             ++ name ++ lit "'")), w)
    end.

(** ** What one execution of the script receives from outside *)

(** The object returned by the transcription service: the script takes
    its [text] attribute when it has one and [str()] of it otherwise. *)
Inductive transcription :=
| WithText (text : option pystr)
| Plain (str_of : pystr).

(** The value of the audio widget. *)
Record upload := {
  read : outcome bytes;
}.

(** The three external services.  [complete] stands for the request and
    the selection [response.choices[0].message.content]; [synthesize] for
    the request and the consumption of the generator it returns. *)
Record services := {
  transcribe : bytes -> outcome transcription;
  complete : list message -> outcome (option pystr);
  synthesize : option pystr -> outcome (list bytes);
}.

Record inputs := {
  cfg : config;
  (** [load_data(file_hash(PERSONA_FILE), file_hash(FACTS_FILE))] *)
  load_data : outcome (json * json);
  (** [st.audio_input(...)] *)
  audio_value : option upload;
  (** the name the operating system gives to the temporary file *)
  tmp_name : pystr;
  svc : services;
}.

(** ** Start-up (l. 25-39) *)

Definition validate_keys (c : config) : M unit :=
  missing ← lift (missing_keys c);
  match missing with
  | [] => mret tt
  | _ :: _ => st_error (missing_message missing);; st_stop
  end.

(** ** Session initialisation (l. 86-198 and 565-566) *)

Definition system_message (prompt : pystr) : message :=
  {| role_of := system; content := Some prompt |}.

Definition init_messages `{PyLib} (persona facts : json) : M unit :=
  s ← get_session;
  match s.(messages) with
  | None =>
      prompt ← lift (system_prompt persona facts);
      modify_session (set_messages (Some [system_message prompt]))
  | Some _ => mret tt
  end.

Definition init_input_key : M unit :=
  s ← get_session;
  match s.(input_key) with
  | None => modify_session (set_input_key (Some 0%Z))
  | Some _ => mret tt
  end.

(** ** The turn pipeline (l. 636-706) *)

Definition user_message (text : pystr) : message :=
  {| role_of := user; content := Some text |}.

Definition assistant_message (bot_text : option pystr) : message :=
  {| role_of := assistant; content := bot_text |}.

(** l. 656-659 *)
Definition user_text_of (t : transcription) : option pystr :=
  match t with
  | WithText text => text
  | Plain s => Some s
  end.

(** l. 640-665: the transcription step and its handler. *)
Definition transcription_step (i : inputs) (audio : upload) : M (option pystr) :=
  try_except
    (create_temp i.(tmp_name);;
     data ← call audio.(read);
     write_file i.(tmp_name) data;;
     let tmp_audio_path := i.(tmp_name) in
     audio_file ← read_file tmp_audio_path;
     transcription ← request Transcription (i.(svc).(transcribe) audio_file);
     let user_text := user_text_of transcription in
     os_remove tmp_audio_path;;
     mret user_text)
    (fun e =>
       st_error (lit "Audio processing failed: " ++ e);;
       mret None).

(** [user_text and user_text.strip()] *)
Definition has_speech (user_text : option pystr) : bool :=
  truthy user_text && truthy (strip <$> user_text).

(** l. 672-706: completion, synthesis and their common handler. *)
Definition reply_step (i : inputs) : M unit :=
  try_except
    (log ← attribute "messages" messages;
     bot_text ← request Completion (i.(svc).(complete) log);
     append_message (assistant_message bot_text);;
     modify_session (set_scroll_after_message (Some true));;
     chunks ← request Synthesis (i.(svc).(synthesize) bot_text);
     let audio_bytes := concat chunks in
     modify_session (set_current_audio (Some audio_bytes));;
     key ← attribute "input_key" input_key;
     modify_session (set_input_key (Some (key + 1)%Z));;
     st_rerun)
    (fun e => st_error (lit "Error: " ++ e)).

Definition pipeline (i : inputs) : M unit :=
  match i.(audio_value) with
  | None => mret tt
  | Some audio =>
      user_text ← transcription_step i audio;
      match user_text with
      | Some text =>
          if has_speech user_text then
            append_message (user_message text);;
            reply_step i
          else mret tt
      | None => mret tt
      end
  end.

(** ** The end of the script (l. 708-786) *)

Definition autoplay : M unit :=
  s ← get_session;
  match s.(current_audio) with
  | Some (b :: data) =>
      st_audio (b :: data);;
      modify_session (set_current_audio None)
  | _ => mret tt
  end.

Definition scroll : M unit :=
  log ← attribute "messages" messages;
  if decide (1 < length log) then
    emit ScrollScript;;
    modify_session (set_scroll_after_message None)
  else mret tt.

(** ** One execution of the script *)

Definition script `{PyLib} (i : inputs) : M unit :=
  validate_keys i.(cfg);;
  '(persona, facts) ← call i.(load_data);
  init_messages persona facts;;
  init_input_key;;
  pipeline i;;
  autoplay;;
  scroll.

(** A script run starts on an empty page, with the session state and the
    files the previous run left. *)
Definition run `{PyLib} (i : inputs) (s : session_state)
    (fs : gmap pystr bytes) : result unit * world :=
  script i {| session := s; files := fs; page := []; requests := [] |}.

(** The states a session goes through, from one script run to the next. *)
Inductive reachable `{PyLib} : session_state -> gmap pystr bytes -> Prop :=
| reachable_new fs : reachable new_session fs
| reachable_run s fs i r w :
    reachable s fs ->
    run i s fs = (r, w) ->
    reachable w.(session) w.(files).

(** N executions of the script in a row, each on the state the previous
    one left. *)
Fixpoint runs `{PyLib} (batch : list inputs) (s : session_state)
    (fs : gmap pystr bytes) : session_state * gmap pystr bytes :=
  match batch with
  | [] => (s, fs)
  | i :: rest =>
      let w := (run i s fs).2 in
      runs rest w.(session) w.(files)
  end.

(** ** Vocabulary of the properties *)

(** The transcription step as a whole: reading the recording and asking
    the service. *)
Definition transcription_outcome (i : inputs) (audio : upload)
    : outcome transcription :=
  match audio.(read) with
  | Returns data => i.(svc).(transcribe) data
  | Raises msg => Raises msg
  end.

(** What the temporary file holds once the recording was read. *)
Definition recorded (audio : upload) : bytes :=
  match audio.(read) with
  | Returns data => data
  | Raises _ => []
  end.

(** The request the transcription step makes, when it gets that far. *)
Definition asked (audio : upload) : list service :=
  match audio.(read) with
  | Returns _ => [Transcription]
  | Raises _ => []
  end.

(** Empty or made of white space only. *)
Definition whitespace_only (text : pystr) : bool := forallb isspace text.

(** The session once the reply was appended (l. 682-685). *)
Definition replied (bot_text : option pystr) (log : list message)
    (s : session_state) : session_state :=
  set_scroll_after_message (Some true)
    (set_messages (Some (log ++ [assistant_message bot_text])) s).

(** What a pipeline run appends: nothing, the user message alone, or the
    user message and the reply. *)
Inductive appended : list message → Prop :=
| appended_nothing : appended []
| appended_user text : appended [user_message text]
| appended_pair text bot_text :
    appended [user_message text; assistant_message bot_text].

(** *** Secrets and start-up *)

(** The lookup in the words of its description: the secret when the
    store can be read and has the key, otherwise the environment
    variable of that name, otherwise the default. *)
Definition two_tier_lookup (cfg : config) (key : pystr)
    (default : option pystr) : option pystr :=
  let fallback :=
    match cfg.(os_environ) !! key with
    | Some v => Some v
    | None => default
    end in
  match cfg.(st_secrets) with
  | Secrets m =>
      match m !! key with
      | Some v => Some v
      | None => fallback
      end
  | SecretsUnavailable _ => fallback
  end.

(** The keys whose absence stops the script. *)
Definition required : list pystr :=
  [OPENAI_API_KEY; ELEVENLABS_API_KEY; GROQ_API_KEY].

(** [not get_secret(key)] *)
Definition absent (cfg : config) (key : pystr) : bool :=
  negb (truthy (two_tier_lookup cfg key None)).

(** The list [missing], by the lookups that fill it. *)
Definition missing_of (cfg : config) : list pystr :=
  append_if_not (two_tier_lookup cfg GROQ_API_KEY None) GROQ_API_KEY
    (append_if_not (two_tier_lookup cfg ELEVENLABS_API_KEY None)
       ELEVENLABS_API_KEY
       (append_if_not (two_tier_lookup cfg OPENAI_API_KEY None)
          OPENAI_API_KEY [])).

(** *** The shape of the log *)

(** After the system message: no further system message, and every
    assistant message directly after a user message. *)
Fixpoint follows_user (after_user : bool) (log : list message) : bool :=
  match log with
  | [] => true
  | m :: rest =>
      match m.(role_of) with
      | system => false
      | user => follows_user true rest
      | assistant => after_user && follows_user false rest
      end
  end.

(** Strict alternation: user, assistant, user, assistant, ... *)
Fixpoint alternates (next : role) (log : list message) : bool :=
  match log with
  | [] => true
  | m :: rest =>
      match next, m.(role_of) with
      | user, user => alternates assistant rest
      | assistant, assistant => alternates user rest
      | _, _ => false
      end
  end.

(** A system message first, strict alternation after it. *)
Definition strictly_alternating (log : list message) : bool :=
  match log with
  | [] => false
  | m :: rest =>
      match m.(role_of) with
      | system => alternates user rest
      | _ => false
      end
  end.

(** The invariant of the log, from one script run to the next. *)
Definition log_invariant (s : session_state) : Prop :=
  match s.(messages) with
  | None => True
  | Some log =>
      ∃ prompt rest,
        log = system_message prompt :: rest ∧ follows_user false rest = true
  end.

(** One user/assistant pair. *)
Definition exchange (p : pystr * option pystr) : list message :=
  [user_message p.1; assistant_message p.2].

(** A script run in which every step succeeds: the keys are there, the
    data loads, the recording is transcribed to [text], which is not
    blank, the completion is [bot_text] and the synthesis returns. *)
Definition answered (i : inputs) (p : pystr * option pystr) : Prop :=
  missing_keys i.(cfg) = Ok [] ∧
  (∃ data, i.(load_data) = Returns data) ∧
  ∃ audio t chunks,
    i.(audio_value) = Some audio ∧
    transcription_outcome i audio = Returns t ∧
    user_text_of t = Some p.1 ∧
    has_speech (Some p.1) = true ∧
    (∀ log, i.(svc).(complete) log = Returns p.2) ∧
    i.(svc).(synthesize) p.2 = Returns chunks.

(** The script runs of a conversation of N exchanges: runs in which
    every step succeeds, and between them runs with nothing in the audio
    widget, such as the run [st.rerun()] asks for. *)
Inductive conversation
    : list inputs → list (pystr * option pystr) → Prop :=
| conversation_over : conversation [] []
| conversation_idle i batch pairs :
    i.(audio_value) = None →
    conversation batch pairs →
    conversation (i :: batch) pairs
| conversation_turn i p batch pairs :
    answered i p →
    conversation batch pairs →
    conversation (i :: batch) (p :: pairs).

(** *** Personas *)

(** [isinstance(v, str)] *)
Definition is_str (v : json) : bool :=
  match v with
  | JStr _ => true
  | _ => false
  end.

(** A persona as the design describes it: a mapping whose
    [instructions], when present, are a list of strings. *)
Definition valid_persona (persona : json) : bool :=
  match persona with
  | JObj members =>
      match dict_get members (lit "instructions") (JArr []) with
      | JArr items => forallb is_str items
      | _ => false
      end
  | _ => false
  end.

(** [d.setdefault(key, v)] on the members of a dict *)
Fixpoint setdefault (key : pystr) (v : json) (members : list (pystr * json))
    : list (pystr * json) :=
  match members with
  | [] => [(key, v)]
  | (k, x) :: rest =>
      if decide (k = key) then members else (k, x) :: setdefault key v rest
  end.

(** The persona with every absent field set to the default the prompt
    uses for it. *)
Definition with_defaults (members : list (pystr * json)) : list (pystr * json) :=
  setdefault (lit "name") (JStr (lit "Danish Akhtar"))
    (setdefault (lit "role") (JStr (lit "Voice Agent"))
       (setdefault (lit "tone") (JStr (lit "Professional"))
          (setdefault (lit "speaking_style") (JStr (lit "Natural"))
             (setdefault (lit "context") (JStr (lit "Interview"))
                (setdefault (lit "instructions") (JArr []) members))))).

(** ** A worked session

    The scenario of the design document: the persona [{"name": "Dan"}],
    an empty fact sheet, and a recording transcribed to
    "What hobbies do you have?". *)

(** An instance of the library functions for the examples.  It is
    CPython's [str()] on [None], the booleans, the integers and the
    empty list and dict, and no more: on every other value (floats,
    non-empty lists and dicts) it returns the empty text, which is not
    what CPython returns.  The examples format strings only, so they
    never hand it such a value. *)
Definition example_str (v : json) : pystr :=
  match v with
  | JNull => lit "None"
  | JBool true => lit "True"
  | JBool false => lit "False"
  | JInt z => lit (NilZero.string_of_int (Z.to_int z))
  | JArr [] => lit "[]"
  | JObj [] => lit "{}"
  | _ => []
  end.

(** Likewise [json.dumps(v, indent=2)] on [None], the booleans, the
    integers and the empty list and dict, and the empty text, which is
    not what CPython returns, on strings, floats and non-empty lists and
    dicts.  The examples dump the empty fact sheet; the dump of the
    persona (l. 87) is computed and never used. *)
Definition example_dumps (v : json) : pystr :=
  match v with
  | JNull => lit "null"
  | JBool true => lit "true"
  | JBool false => lit "false"
  | JInt z => lit (NilZero.string_of_int (Z.to_int z))
  | JArr [] => lit "[]"
  | JObj [] => lit "{}"
  | _ => []
  end.

Definition example_lib : PyLib :=
  {| py_str := example_str; json_dumps := example_dumps |}.

Definition dan : json := JObj [(lit "name", JStr (lit "Dan"))].
Definition no_facts : json := JObj [].

(** The three API keys in the environment, no secrets file and no
    [OPENAI_BASE_URL]. *)
Definition three_keys : config :=
  {| st_secrets := SecretsUnavailable (lit "No secrets found");
     os_environ :=
       <[OPENAI_API_KEY := lit "sk-1"]>
       (<[ELEVENLABS_API_KEY := lit "el-2"]>
       (<[GROQ_API_KEY := lit "gsk-3"]> ∅)) |}.

(** Only the Groq key, in the secrets file. *)
Definition groq_only : config :=
  {| st_secrets := Secrets (<[GROQ_API_KEY := lit "gsk-3"]> ∅);
     os_environ := ∅ |}.

Definition clip : bytes := [Byte.x52; Byte.x49; Byte.x46; Byte.x46].
Definition recording : upload := {| read := Returns clip |}.
Definition question : pystr := lit "What hobbies do you have?".
Definition answer : pystr := lit "Not much, mostly reading.".
Definition speech : list bytes := [[Byte.x49; Byte.x44]; [Byte.x33]].
Definition tmp_wav : pystr := lit "/tmp/tmpk3x9.wav".

(** All three services answer. *)
Definition all_up : services :=
  {| transcribe := fun _ => Returns (Plain question);
     complete := fun _ => Returns (Some answer);
     synthesize := fun _ => Returns speech |}.

Definition transcription_down : services :=
  {| transcribe := fun _ => Raises (lit "Connection error.");
     complete := fun _ => Returns (Some answer);
     synthesize := fun _ => Returns speech |}.

Definition completion_down : services :=
  {| transcribe := fun _ => Returns (Plain question);
     complete := fun _ => Raises (lit "Connection error.");
     synthesize := fun _ => Returns speech |}.

Definition synthesis_down : services :=
  {| transcribe := fun _ => Returns (Plain question);
     complete := fun _ => Returns (Some answer);
     synthesize := fun _ => Raises (lit "quota_exceeded") |}.

(** The recording is silence: the transcription is blank. *)
Definition hears_nothing : services :=
  {| transcribe := fun _ => Returns (Plain (lit "  "));
     complete := fun _ => Returns (Some answer);
     synthesize := fun _ => Returns speech |}.

Definition spoken (s : services) : inputs :=
  {| cfg := three_keys; load_data := Returns (dan, no_facts);
     audio_value := Some recording; tmp_name := tmp_wav; svc := s |}.

(** A run with nothing in the audio widget. *)
Definition idle : inputs :=
  {| cfg := three_keys; load_data := Returns (dan, no_facts);
     audio_value := None; tmp_name := tmp_wav; svc := all_up |}.

Definition blank_world (s : session_state) : world :=
  {| session := s; files := ∅; page := []; requests := [] |}.

(** The session after its first, idle, script run. *)
Definition opened : session_state :=
  (@runs example_lib [idle] new_session ∅).1.

(** The log of the worked session when it opens: the system message. *)
Definition opening_log : list message := default [] opened.(messages).

(** The session after a run in which the completion failed, twice. *)
Definition stalled : session_state :=
  (@runs example_lib [spoken completion_down; spoken completion_down]
     opened ∅).1.

(** * The rest of the script *)

(** ** The history on the page (l. 505-543) *)

(** [{msg['content']}]: the content of a message inside an f-string. *)
Definition format_content (c : option pystr) : pystr :=
  match c with
  | Some text => text
  | None => lit "None"
  end.

(** What [st.markdown] is given for a message: one of three blocks. *)
Inductive bubble :=
| MsgUser (c : option pystr)
| MsgAssistantLatest (c : option pystr)
| MsgAssistantPrev (c : option pystr).

(** The f-strings of l. 519-523, 528-532 and 539-543. *)
Definition markdown (b : bubble) : pystr :=
  match b with
  | MsgUser c =>
      join [LF] [
        [];
        lit "            <div class=" ++ [DQUOTE] ++ lit "msg-user" ++ [DQUOTE]
          ++ lit ">";
        lit "                <span class=" ++ [DQUOTE] ++ lit "msg-user-text"
          ++ [DQUOTE] ++ lit ">" ++ [8220%N] ++ format_content c ++ [8221%N]
          ++ lit "</span>";
        lit "            </div>";
        lit "            "
      ]
  | MsgAssistantLatest c =>
      join [LF] [
        [];
        lit "                <div class=" ++ [DQUOTE]
          ++ lit "msg-assistant-latest" ++ [DQUOTE] ++ lit ">";
        lit "                    " ++ format_content c;
        lit "                </div>";
        lit "                "
      ]
  | MsgAssistantPrev c =>
      join [LF] [
        [];
        lit "                <div class=" ++ [DQUOTE]
          ++ lit "msg-assistant-prev" ++ [DQUOTE] ++ lit ">";
        lit "                    " ++ format_content c;
        lit "                </div>";
        lit "                "
      ]
  end.

(** [msg["role"] == "assistant"] *)
Definition is_assistant (m : message) : bool :=
  match m.(role_of) with
  | assistant => true
  | _ => false
  end.

(** l. 508-512: the loop visits [history[i]] for [i] from the last index
    down to 0, here along the reversed list, and stops at the first
    assistant message; [-1] when it finds none. *)
Fixpoint search_assistant (reversed : list message) (i : Z) : Z :=
  match reversed with
  | [] => (-1)%Z
  | m :: earlier =>
      if is_assistant m then i else search_assistant earlier (i - 1)%Z
  end.

Definition last_assistant_idx (history : list message) : Z :=
  search_assistant (rev history) (Z.of_nat (length history) - 1)%Z.

(** l. 514-543: the loop over [enumerate(history)], from index [i]. *)
Fixpoint render_from (last_idx : Z) (i : Z) (msgs : list message)
    : list bubble :=
  match msgs with
  | [] => []
  | msg :: rest =>
      match msg.(role_of) with
      | system => render_from last_idx (i + 1)%Z rest
      | user => MsgUser msg.(content) :: render_from last_idx (i + 1)%Z rest
      | assistant =>
          (if (i =? last_idx)%Z then MsgAssistantLatest msg.(content)
           else MsgAssistantPrev msg.(content))
            :: render_from last_idx (i + 1)%Z rest
      end
  end.

(** l. 505-543 *)
Definition render_history (history : list message) : list bubble :=
  if decide (1 < length history) then
    render_from (last_assistant_idx history) 0 history
  else [].

(** ** The audio widget (l. 569) *)

(** [f"audio_input_{st.session_state.input_key}"] *)
Definition audio_input_key (input_key : Z) : pystr :=
  lit "audio_input_" ++ lit (NilZero.string_of_int (Z.to_int input_key)).

(** ** Vocabulary of the further properties *)

(** The bubbles of a log with no emphasis: a user block for a user
    message, a faded block for an assistant message, nothing for a
    system message. *)
Fixpoint faded (msgs : list message) : list bubble :=
  match msgs with
  | [] => []
  | msg :: rest =>
      match msg.(role_of) with
      | system => faded rest
      | user => MsgUser msg.(content) :: faded rest
      | assistant => MsgAssistantPrev msg.(content) :: faded rest
      end
  end.

(** The number of assistant messages of a log. *)
Definition replies (log : list message) : nat :=
  length (List.filter is_assistant log).

(** The script from l. 565 to its end. *)
Definition after_init (i : inputs) : M unit :=
  init_input_key;; pipeline i;; autoplay;; scroll.



(** The end of every prompt: the fixed policy and the closing line. *)
Definition policy_block : pystr := join [LF] (policy ++ [lit "    "]).

(** The requests of one run, in the order of the pipeline. *)
Definition pipeline_order : list service :=
  [Transcription; Completion; Synthesis].

Definition is_error (e : element) : bool :=
  match e with
  | StError _ => true
  | _ => false
  end.

(** The session once l. 565-566 ran. *)
Definition keyed (s : session_state) : session_state :=
  match s.(input_key) with
  | None => set_input_key (Some 0%Z) s
  | Some _ => s
  end.

(** The world once the autoplay block ran (l. 709-714). *)
Definition played (w : world) : world :=
  match w.(session).(current_audio) with
  | Some (b :: data) =>
      {| session := set_current_audio None w.(session);
         files := w.(files);
         page := w.(page) ++ [StAudio (b :: data)];
         requests := w.(requests) |}
  | _ => w
  end.

(** The world once the scroll block ran (l. 717-786), for a session
    that has a log. *)
Definition scrolled (w : world) : world :=
  match w.(session).(messages) with
  | Some log =>
      if decide (1 < length log) then
        {| session := set_scroll_after_message None w.(session);
           files := w.(files);
           page := w.(page) ++ [ScrollScript];
           requests := w.(requests) |}
      else w
  | None => w
  end.

(** What the transcription step leaves when it raised. *)
Definition unheard (i : inputs) (audio : upload) (msg : pystr) (w : world)
    : world :=
  {| session := w.(session);
     files := <[i.(tmp_name) := recorded audio]> w.(files);
     page := w.(page) ++ [StError (lit "Audio processing failed: " ++ msg)];
     requests := w.(requests) ++ asked audio |}.

(** What the transcription step leaves when it returned. *)
Definition heard (i : inputs) (w : world) : world :=
  {| session := w.(session);
     files := delete i.(tmp_name) w.(files);
     page := w.(page);
     requests := w.(requests) ++ [Transcription] |}.

(** What a block shows of the message it stands for. *)
Definition bubble_content (b : bubble) : option pystr :=
  match b with
  | MsgUser c => c
  | MsgAssistantLatest c => c
  | MsgAssistantPrev c => c
  end.

(** *** Further runs of the worked session *)

(** A run with the Groq key alone. *)
Definition unconfigured : inputs :=
  {| cfg := groq_only; load_data := Returns (dan, no_facts);
     audio_value := Some recording; tmp_name := tmp_wav; svc := all_up |}.

(** A run in which [persona.json] is not JSON. *)
Definition unloadable : inputs :=
  {| cfg := three_keys;
     load_data := Raises (lit "Expecting value: line 1 column 1 (char 0)");
     audio_value := Some recording; tmp_name := tmp_wav; svc := all_up |}.

(** The Groq key is set in the environment and blank in the secrets. *)
Definition blanked : config :=
  {| st_secrets := Secrets (<[GROQ_API_KEY := []]> ∅);
     os_environ :=
       <[OPENAI_API_KEY := lit "sk-1"]>
       (<[ELEVENLABS_API_KEY := lit "el-2"]>
       (<[GROQ_API_KEY := lit "gsk-3"]> ∅)) |}.

(** The session after the question was answered. *)
Definition replied_session : session_state :=
  (@runs example_lib [spoken all_up] opened ∅).1.

(** The counter of the audio widget against the log. *)
Definition session_invariant (s : session_state) : Prop :=
  match s.(messages) with
  | None => s = new_session
  | Some log =>
      ∃ key, s.(input_key) = Some key ∧ (0 ≤ key ≤ Z.of_nat (replies log))%Z
  end.

(** *** The fields of the prompt, in the words of the design *)

(** The value a mapping has for a key, when it has one. *)
Fixpoint member (members : list (pystr * json)) (key : pystr) : option json :=
  match members with
  | [] => None
  | (k, v) :: rest => if decide (k = key) then Some v else member rest key
  end.

(** What the prompt shows for a field: the text of its value, and the
    fixed default when the persona has no such field. *)
Definition field_text `{PyLib} (members : list (pystr * json))
    (key default : string) : pystr :=
  match member members (lit key) with
  | Some v => format_value v
  | None => lit default
  end.

(** The text of a string. *)
Definition text_of (v : json) : pystr :=
  match v with
  | JStr s => s
  | _ => []
  end.

(** The instruction strings of a persona, none when it has no
    [instructions]. *)
Definition instruction_lines (members : list (pystr * json)) : list pystr :=
  match member members (lit "instructions") with
  | Some (JArr items) => List.map text_of items
  | _ => []
  end.

(** * Properties *)

(** ** [str.strip] *)

Lemma lstrip_head (s : pystr) :
  match lstrip s with
  | [] => True
  | c :: _ => isspace c = false
  end.
Proof.
  induction s as [|c s IH]; simpl; [done|].
  destruct (isspace c) eqn:E; [exact IH | exact E].
Qed.

Lemma lstrip_whitespace (s : pystr) :
  lstrip s = [] ↔ whitespace_only s = true.
Proof.
  unfold whitespace_only.
  induction s as [|c s IH]; simpl; [done|].
  destruct (isspace c); simpl; [exact IH | split; discriminate].
Qed.

Lemma whitespace_only_rev (s : pystr) :
  whitespace_only (rev s) = whitespace_only s.
Proof.
  unfold whitespace_only.
  apply eq_true_iff_eq. rewrite !forallb_forall.
  split; intros H x Hx; apply H; [by apply -> in_rev | by apply in_rev].
Qed.

Lemma strip_whitespace (s : pystr) :
  strip s = [] ↔ whitespace_only s = true.
Proof.
  unfold strip, rstrip. split.
  - intros H. apply (f_equal (@rev N)) in H. rewrite rev_involutive in H.
    simpl in H. apply lstrip_whitespace in H.
    rewrite whitespace_only_rev in H.
    pose proof (lstrip_head s) as Hhd.
    destruct (lstrip s) as [|c t] eqn:E; [by apply lstrip_whitespace|].
    unfold whitespace_only in H. simpl in H. rewrite Hhd in H. discriminate.
  - intros H. apply lstrip_whitespace in H. by rewrite H.
Qed.

Lemma has_speech_whitespace (text : pystr) :
  has_speech (Some text) = false ↔ whitespace_only text = true.
Proof.
  rewrite <- strip_whitespace. unfold has_speech. simpl.
  destruct text as [|c t]; simpl; [by rewrite (proj2 (strip_whitespace []))|].
  destruct (strip (c :: t)); simpl; split; intros; done.
Qed.

(** ** The blocks of the pipeline *)

Lemma transcription_step_spec (i : inputs) (audio : upload) (w : world) :
  transcription_step i audio w =
    match transcription_outcome i audio with
    | Returns t =>
        (Ok (user_text_of t),
         {| session := w.(session);
            files := delete i.(tmp_name) w.(files);
            page := w.(page);
            requests := w.(requests) ++ [Transcription] |})
    | Raises msg =>
        (Ok None,
         {| session := w.(session);
            files := <[i.(tmp_name) := recorded audio]> w.(files);
            page := w.(page) ++ [StError (lit "Audio processing failed: " ++ msg)];
            requests := w.(requests) ++ asked audio |})
    end.
Proof.
  unfold transcription_step, transcription_outcome, recorded, asked,
    try_except, mbind, M_bind, create_temp, write_file, read_file,
    os_remove, request, call, lift, st_error, emit, with_files.
  destruct w as [s fs pg rq]; simpl.
  destruct (read audio) as [data|msg]; simpl.
  - rewrite lookup_insert_eq.
    destruct (transcribe (svc i) data) as [t|msg]; simpl.
    + rewrite lookup_insert_eq. simpl.
      by rewrite !delete_insert_eq.
    + by rewrite insert_insert_eq.
  - by rewrite app_nil_r.
Qed.

Lemma append_message_spec (m : message) (w : world) (log : list message) :
  w.(session).(messages) = Some log →
  append_message m w =
    (Ok tt, with_session (set_messages (Some (log ++ [m]))) w).
Proof.
  intros Hlog.
  unfold append_message, attribute, get_session, modify_session, mbind, M_bind.
  by rewrite Hlog.
Qed.

Lemma reply_step_spec (i : inputs) (w : world) (log : list message) :
  w.(session).(messages) = Some log →
  reply_step i w =
    match i.(svc).(complete) log with
    | Raises msg =>
        (Ok tt,
         {| session := w.(session); files := w.(files);
            page := w.(page) ++ [StError (lit "Error: " ++ msg)];
            requests := w.(requests) ++ [Completion] |})
    | Returns bot_text =>
        match i.(svc).(synthesize) bot_text with
        | Raises msg =>
            (Ok tt,
             {| session := replied bot_text log w.(session);
                files := w.(files);
                page := w.(page) ++ [StError (lit "Error: " ++ msg)];
                requests := w.(requests) ++ [Completion; Synthesis] |})
        | Returns chunks =>
            let s := set_current_audio (Some (concat chunks))
                       (replied bot_text log w.(session)) in
            match w.(session).(input_key) with
            | Some key =>
                (Raise RerunException,
                 {| session := set_input_key (Some (key + 1)%Z) s;
                    files := w.(files); page := w.(page);
                    requests := w.(requests) ++ [Completion; Synthesis] |})
            | None =>
                (Ok tt,
                 {| session := s; files := w.(files);
                    page := w.(page) ++
                      [StError (lit "Error: "
                         ++ lit "st.session_state has no attribute "
                         ++ lit "input_key")];
                    requests := w.(requests) ++ [Completion; Synthesis] |})
            end
        end
    end.
Proof.
  intros Hlog. destruct w as [s fs pg rq]; simpl in *.
  unfold reply_step, try_except, mbind at 1, M_bind.
  unfold attribute at 1, get_session, mbind, M_bind, request; simpl.
  rewrite Hlog; simpl.
  destruct (complete (svc i) log) as [bot_text|msg]; simpl; [|done].
  unfold append_message, attribute, get_session, modify_session,
    mbind, M_bind, with_session; simpl.
  rewrite Hlog; simpl.
  destruct (synthesize (svc i) bot_text) as [chunks|msg]; simpl;
    [|by rewrite <- app_assoc].
  destruct (input_key s) as [key|]; simpl; by rewrite <- app_assoc.
Qed.

(** ** Transcription failure *)

(** C4.  When the transcription step raises, the pipeline stops after
    the notice "Audio processing failed: ..." and the script goes on:
    the session state, and with it the message log, is what it was, and
    neither the completion nor the synthesis service is asked. *)
Theorem transcription_failure_aborts
    (i : inputs) (w : world) (audio : upload) (msg : pystr) :
  i.(audio_value) = Some audio →
  transcription_outcome i audio = Raises msg →
  pipeline i w =
    (Ok tt,
     {| session := w.(session);
        files := <[i.(tmp_name) := recorded audio]> w.(files);
        page := w.(page) ++ [StError (lit "Audio processing failed: " ++ msg)];
        requests := w.(requests) ++ asked audio |}).
Proof.
  intros Haudio Hout. unfold pipeline. rewrite Haudio.
  unfold mbind, M_bind. by rewrite transcription_step_spec, Hout.
Qed.

(** ** Blank transcription *)

(** C5.  When the transcribed text is empty or white space only, the
    pipeline ends without a word: the session state and the page are
    what they were, and the only request made is the transcription. *)
Theorem blank_transcription_is_noop
    (i : inputs) (w : world) (audio : upload) (t : transcription)
    (text : pystr) :
  i.(audio_value) = Some audio →
  transcription_outcome i audio = Returns t →
  user_text_of t = Some text →
  whitespace_only text = true →
  pipeline i w =
    (Ok tt,
     {| session := w.(session);
        files := delete i.(tmp_name) w.(files);
        page := w.(page);
        requests := w.(requests) ++ [Transcription] |}).
Proof.
  intros Haudio Hout Htext Hblank. unfold pipeline. rewrite Haudio.
  unfold mbind, M_bind. rewrite transcription_step_spec, Hout, Htext.
  by rewrite (proj2 (has_speech_whitespace text) Hblank).
Qed.

(** ** Completion failure *)

(** C2.  When the completion raises, the log has grown by the user
    message and by nothing else, the notice "Error: ..." is on the page,
    the synthesis service is not asked, and the script goes on. *)
Theorem completion_failure_keeps_user_turn
    (i : inputs) (w : world) (audio : upload) (t : transcription)
    (text : pystr) (log : list message) (msg : pystr) :
  i.(audio_value) = Some audio →
  transcription_outcome i audio = Returns t →
  user_text_of t = Some text →
  has_speech (Some text) = true →
  w.(session).(messages) = Some log →
  i.(svc).(complete) (log ++ [user_message text]) = Raises msg →
  pipeline i w =
    (Ok tt,
     {| session :=
          set_messages (Some (log ++ [user_message text])) w.(session);
        files := delete i.(tmp_name) w.(files);
        page := w.(page) ++ [StError (lit "Error: " ++ msg)];
        requests := w.(requests) ++ [Transcription; Completion] |}).
Proof.
  intros Haudio Hout Htext Hspeech Hlog Hfail. unfold pipeline. rewrite Haudio.
  unfold mbind at 1, M_bind. rewrite transcription_step_spec, Hout, Htext, Hspeech.
  unfold mbind, M_bind.
  rewrite (append_message_spec _ _ log) by done.
  rewrite (reply_step_spec _ _ (log ++ [user_message text])) by done.
  rewrite Hfail. simpl. by rewrite <- app_assoc.
Qed.

(** ** Synthesis failure *)

(** C3.  When the completion returns and the synthesis raises, the log
    has grown by the user message and the assistant message, no audio is
    stored for playback and none is played, the notice "Error: ..." is
    on the page, and the script goes on. *)
Theorem synthesis_failure_keeps_both_turns
    (i : inputs) (w : world) (audio : upload) (t : transcription)
    (text : pystr) (log : list message) (bot_text : option pystr)
    (msg : pystr) :
  i.(audio_value) = Some audio →
  transcription_outcome i audio = Returns t →
  user_text_of t = Some text →
  has_speech (Some text) = true →
  w.(session).(messages) = Some log →
  i.(svc).(complete) (log ++ [user_message text]) = Returns bot_text →
  i.(svc).(synthesize) bot_text = Raises msg →
  ∃ w',
    pipeline i w = (Ok tt, w') ∧
    w'.(session).(messages) =
      Some (log ++ [user_message text; assistant_message bot_text]) ∧
    w'.(session).(current_audio) = w.(session).(current_audio) ∧
    w'.(session).(input_key) = w.(session).(input_key) ∧
    w'.(page) = w.(page) ++ [StError (lit "Error: " ++ msg)] ∧
    w'.(requests) = w.(requests) ++ [Transcription; Completion; Synthesis].
Proof.
  intros Haudio Hout Htext Hspeech Hlog Hdone Hfail. unfold pipeline.
  rewrite Haudio.
  unfold mbind at 1, M_bind. rewrite transcription_step_spec, Hout, Htext, Hspeech.
  unfold mbind, M_bind.
  rewrite (append_message_spec _ _ log) by done.
  rewrite (reply_step_spec _ _ (log ++ [user_message text])) by done.
  rewrite Hdone, Hfail. eexists. split; [reflexivity|]. simpl.
  by rewrite <- !app_assoc.
Qed.

(** The four properties above, on the worked session. *)

Lemma transcription_failure_aborts_witness :
  pipeline (spoken transcription_down) (blank_world opened) =
    (Ok tt,
     {| session := opened;
        files := <[tmp_wav := clip]> ∅;
        page := [StError (lit "Audio processing failed: Connection error.")];
        requests := [Transcription] |}).
Proof.
  exact (transcription_failure_aborts (spoken transcription_down)
           (blank_world opened) recording (lit "Connection error.")
           eq_refl eq_refl).
Defined.

Lemma blank_transcription_is_noop_witness :
  pipeline (spoken hears_nothing) (blank_world opened) =
    (Ok tt,
     {| session := opened; files := delete tmp_wav ∅; page := [];
        requests := [Transcription] |}).
Proof.
  exact (blank_transcription_is_noop (spoken hears_nothing)
           (blank_world opened) recording (Plain (lit "  ")) (lit "  ")
           eq_refl eq_refl eq_refl eq_refl).
Defined.

Lemma opened_messages : opened.(messages) = Some opening_log.
Proof. reflexivity. Qed.

Lemma completion_failure_keeps_user_turn_witness :
  pipeline (spoken completion_down) (blank_world opened) =
    (Ok tt,
     {| session :=
          set_messages (Some (opening_log ++ [user_message question])) opened;
        files := delete tmp_wav ∅;
        page := [StError (lit "Error: Connection error.")];
        requests := [Transcription; Completion] |}).
Proof.
  exact (completion_failure_keeps_user_turn (spoken completion_down)
           (blank_world opened) recording (Plain question) question
           opening_log (lit "Connection error.")
           eq_refl eq_refl eq_refl eq_refl opened_messages eq_refl).
Defined.

Lemma synthesis_failure_keeps_both_turns_witness :
  ∃ w',
    pipeline (spoken synthesis_down) (blank_world opened) = (Ok tt, w') ∧
    w'.(session).(messages) =
      Some (opening_log
              ++ [user_message question; assistant_message (Some answer)]) ∧
    w'.(session).(current_audio) = None ∧
    w'.(session).(input_key) = Some 0%Z ∧
    w'.(page) = [StError (lit "Error: quota_exceeded")] ∧
    w'.(requests) = [Transcription; Completion; Synthesis].
Proof.
  exact (synthesis_failure_keeps_both_turns (spoken synthesis_down)
           (blank_world opened) recording (Plain question) question
           opening_log (Some answer) (lit "quota_exceeded")
           eq_refl eq_refl eq_refl eq_refl opened_messages eq_refl eq_refl).
Defined.

(** ** The temporary file *)

(** When the transcription returns, [os.remove] has run: the temporary
    file is gone, and a file system that did not have it is unchanged. *)
Lemma temp_file_removed_on_success
    (i : inputs) (audio : upload) (t : transcription) (w : world) :
  transcription_outcome i audio = Returns t →
  (transcription_step i audio w).2.(files) !! i.(tmp_name) = None ∧
  (w.(files) !! i.(tmp_name) = None →
   (transcription_step i audio w).2.(files) = w.(files)).
Proof.
  intros Hout. rewrite transcription_step_spec, Hout. simpl. split.
  - apply lookup_delete_eq.
  - apply delete_id.
Qed.

(** When the transcription step raises, control leaves the [try] block
    before [os.remove]: the temporary file stays. *)
Lemma temp_file_kept_on_failure
    (i : inputs) (audio : upload) (msg : pystr) (w : world) :
  transcription_outcome i audio = Raises msg →
  (transcription_step i audio w).2.(files) !! i.(tmp_name)
    = Some (recorded audio).
Proof.
  intros Hout. rewrite transcription_step_spec, Hout. simpl.
  apply lookup_insert_eq.
Qed.

(** C7.  A script run whose transcription request fails leaves the
    temporary file, with the recording in it, on the file system. *)
Theorem temp_file_left_behind :
  (@run example_lib (spoken transcription_down) opened ∅).2.(files) !! tmp_wav
    = Some clip.
Proof. vm_compute. reflexivity. Qed.

(** ** Secrets *)

Lemma get_secret_spec (cfg : config) (key : pystr) (default : option pystr) :
  get_secret cfg key default = Ok (two_tier_lookup cfg key default).
Proof.
  unfold get_secret, secret_lookup, two_tier_lookup, os_getenv,
    secrets_contains, secrets_getitem.
  destruct (st_secrets cfg) as [msg|m]; simpl; [done|].
  unfold calling, mbind, result_bind.
  case_bool_decide as Hin.
  - destruct Hin as [v Hv]. by rewrite Hv.
  - destruct (m !! key) as [v|]; [by destruct Hin; eauto | done].
Qed.

(** C10.  [get_secret] returns, for every configuration, key and
    default, and what it returns is the two-tier lookup. *)
Theorem get_secret_two_tier
    (cfg : config) (key : pystr) (default : option pystr) :
  get_secret cfg key default = Ok (two_tier_lookup cfg key default) ∧
  two_tier_lookup cfg key None =
    match cfg.(st_secrets) with
    | Secrets m => from_option Some (cfg.(os_environ) !! key) (m !! key)
    | SecretsUnavailable _ => cfg.(os_environ) !! key
    end.
Proof.
  split; [apply get_secret_spec|].
  unfold two_tier_lookup.
  destruct (st_secrets cfg) as [msg|m];
    [|destruct (m !! key)]; simpl; by destruct (os_environ cfg !! key).
Qed.

(** ** Start-up *)

Lemma missing_keys_spec (cfg : config) :
  missing_keys cfg = Ok (missing_of cfg).
Proof. unfold missing_keys. by rewrite !get_secret_spec. Qed.

Lemma validate_keys_unfold (cfg : config) (w : world) :
  validate_keys cfg w =
    match missing_of cfg with
    | [] => (Ok tt, w)
    | missing =>
        (Raise StopException,
         {| session := w.(session); files := w.(files);
            page := w.(page) ++ [StError (missing_message missing)];
            requests := w.(requests) |})
    end.
Proof.
  unfold validate_keys, lift, mbind at 1, M_bind.
  rewrite missing_keys_spec.
  by destruct (missing_of cfg).
Qed.

(** C6, as the code has it.  The script stops exactly when one of the
    three API keys is absent or empty, and then the notice lists the
    absent ones among the three, in the order of the checks;
    [OPENAI_BASE_URL] is read and not required. *)
Theorem startup_requires_three_keys (cfg : config) (w : world) :
  validate_keys cfg w =
    match List.filter (absent cfg) required with
    | [] => (Ok tt, w)
    | missing =>
        (Raise StopException,
         {| session := w.(session); files := w.(files);
            page := w.(page) ++
              [StError (lit "Missing API keys: " ++ join (lit ", ") missing)];
            requests := w.(requests) |})
    end.
Proof.
  rewrite validate_keys_unfold.
  unfold missing_of, append_if_not, required, absent; simpl List.filter.
  destruct (truthy (two_tier_lookup cfg OPENAI_API_KEY None));
    destruct (truthy (two_tier_lookup cfg ELEVENLABS_API_KEY None));
    destruct (truthy (two_tier_lookup cfg GROQ_API_KEY None));
    reflexivity.
Qed.

(** C6, as it is worded, fails: with the three API keys set and no
    [OPENAI_BASE_URL], one of the four credentials is absent and the
    script goes on. *)
Lemma base_url_absent_not_fatal :
  OPENAI_BASE_URL ∈ credentials ∧
  get_secret three_keys OPENAI_BASE_URL None = Ok None ∧
  validate_keys three_keys (blank_world new_session)
    = (Ok tt, blank_world new_session).
Proof.
  split; [|split].
  - unfold credentials. set_solver.
  - vm_compute. reflexivity.
  - vm_compute. reflexivity.
Qed.

(** ** How one script run changes the log *)

Lemma pipeline_appends (i : inputs) (w : world) (log : list message) :
  w.(session).(messages) = Some log →
  ∃ new r w',
    pipeline i w = (r, w') ∧
    appended new ∧
    w'.(session).(messages) = Some (log ++ new) ∧
    (r = Ok tt ∨ r = Raise RerunException) ∧
    (i.(audio_value) = None → new = []).
Proof.
  intros Hlog. unfold pipeline.
  assert (Hidle : ∀ fs pg rq (P : Prop),
    ∃ new r w',
      (Ok tt, {| session := w.(session); files := fs; page := pg;
                 requests := rq |}) = (r, w') ∧
      appended new ∧ w'.(session).(messages) = Some (log ++ new) ∧
      (r = Ok tt ∨ r = Raise RerunException) ∧ (P → new = [])).
  { intros. exists [], (Ok tt). eexists. split; [reflexivity|].
    rewrite app_nil_r. eauto using appended. }
  destruct (audio_value i) as [audio|];
    [|destruct w; apply Hidle].
  unfold mbind at 1, M_bind. rewrite transcription_step_spec.
  destruct (transcription_outcome i audio) as [t|msg]; [|apply Hidle].
  destruct (user_text_of t) as [text|]; [|apply Hidle].
  destruct (has_speech (Some text)); [|apply Hidle].
  unfold mbind, M_bind.
  rewrite (append_message_spec _ _ log) by done.
  rewrite (reply_step_spec _ _ (log ++ [user_message text])) by done.
  destruct (complete (svc i) (log ++ [user_message text])) as [bot_text|msg].
  - exists [user_message text; assistant_message bot_text].
    destruct (synthesize (svc i) bot_text) as [chunks|msg]; simpl;
      [destruct (input_key (session w)); simpl|];
      eexists _, _; (split; [reflexivity|]); simpl;
      rewrite <- app_assoc; repeat split; eauto using appended; done.
  - exists [user_message text]. eexists _, _. split; [reflexivity|].
    repeat split; eauto using appended; done.
Qed.

Lemma autoplay_spec (w : world) :
  ∃ w', autoplay w = (Ok tt, w') ∧
        w'.(session).(messages) = w.(session).(messages).
Proof.
  unfold autoplay, get_session, mbind, M_bind; simpl.
  destruct (current_audio (session w)) as [[|b data]|]; simpl; eauto.
Qed.

Lemma scroll_spec (w : world) (log : list message) :
  w.(session).(messages) = Some log →
  ∃ w', scroll w = (Ok tt, w') ∧ w'.(session).(messages) = Some log.
Proof.
  intros Hlog. unfold scroll, attribute, get_session, mbind, M_bind.
  rewrite Hlog. simpl. case_decide; simpl; eauto.
Qed.

(** From the pipeline to the end of the script (l. 636-786). *)
Lemma closing_appends (i : inputs) (w : world) (log : list message) :
  w.(session).(messages) = Some log →
  ∃ new,
    ((pipeline i;; autoplay;; scroll) w).2.(session).(messages)
      = Some (log ++ new) ∧
    appended new ∧
    (i.(audio_value) = None → new = []).
Proof.
  intros Hlog.
  destruct (pipeline_appends i w log Hlog)
    as (new & r & w1 & Hrun & Hnew & Hmsgs & Hres & Hidle).
  exists new. split; [|done].
  unfold mbind at 1, M_bind. rewrite Hrun.
  destruct Hres as [-> | ->]; [|done].
  unfold mbind, M_bind.
  destruct (autoplay_spec w1) as (w2 & -> & Hw2).
  rewrite Hmsgs in Hw2.
  by destruct (scroll_spec w2 _ Hw2) as (w3 & -> & Hw3).
Qed.

Lemma validate_keys_spec (c : config) (w : world) :
  validate_keys c w = (Ok tt, w) ∨
  ∃ w', validate_keys c w = (Raise StopException, w') ∧
        w'.(session) = w.(session) ∧ w'.(files) = w.(files).
Proof.
  rewrite validate_keys_unfold.
  destruct (missing_of c); [by left|].
  right. eexists. split; [reflexivity|]. by simpl.
Qed.

Lemma init_input_key_spec (w : world) :
  ∃ w', init_input_key w = (Ok tt, w') ∧
        w'.(session).(messages) = w.(session).(messages) ∧
        is_Some w'.(session).(input_key).
Proof.
  unfold init_input_key, get_session, mbind, M_bind; simpl.
  destruct (input_key (session w)) eqn:E; simpl; eauto 6.
Qed.

(** A script run on a session that has a log: the log grows by what the
    pipeline appends. *)
Lemma script_appends `{PyLib} (i : inputs) (w : world) (log : list message) :
  w.(session).(messages) = Some log →
  ∃ new,
    (script i w).2.(session).(messages) = Some (log ++ new) ∧
    appended new ∧
    (i.(audio_value) = None → new = []).
Proof.
  intros Hlog. unfold script.
  unfold mbind at 1, M_bind.
  destruct (validate_keys_spec (cfg i) w) as [-> | (w' & -> & Hs & _)];
    [|exists []; simpl; rewrite app_nil_r, Hs; eauto using appended].
  unfold mbind at 1, M_bind, call, lift.
  destruct (load_data i) as [[persona facts]|msg]; simpl;
    [|exists []; rewrite app_nil_r; eauto using appended].
  unfold mbind at 1, M_bind.
  unfold init_messages at 1, get_session, mbind at 1, M_bind; simpl.
  rewrite Hlog; simpl.
  unfold mbind at 1, M_bind.
  destruct (init_input_key_spec w) as (w1 & -> & Hw1 & _).
  apply closing_appends. by rewrite Hw1.
Qed.

(** A script run on a session that has no log yet: either it still has
    none, or the log starts with the system message built from the
    loaded persona and facts. *)
Lemma script_opens `{PyLib} (i : inputs) (w : world) :
  w.(session).(messages) = None →
  ∃ r w',
    script i w = (r, w') ∧
    (w'.(session).(messages) = None ∨
     ∃ persona facts prompt new,
       i.(load_data) = Returns (persona, facts) ∧
       system_prompt persona facts = Ok prompt ∧
       appended new ∧
       w'.(session).(messages) = Some (system_message prompt :: new)).
Proof.
  intros Hnone. unfold script.
  unfold mbind at 1, M_bind.
  destruct (validate_keys_spec (cfg i) w) as [-> | (w' & -> & Hs & _)];
    [|eexists _, _; split; [reflexivity|]; left; by rewrite Hs].
  unfold mbind at 1, M_bind, call, lift.
  destruct (load_data i) as [[persona facts]|msg]; simpl;
    [|eexists _, _; split; [reflexivity|]; by left].
  unfold mbind at 1, M_bind.
  unfold init_messages at 1, get_session, mbind at 1, M_bind; simpl.
  rewrite Hnone; simpl.
  unfold mbind at 1, M_bind, lift.
  destruct (system_prompt persona facts) as [prompt|e] eqn:Hprompt;
    [|eexists _, _; split; [reflexivity|]; by left].
  unfold modify_session.
  unfold mbind at 1, M_bind.
  destruct (init_input_key_spec
              (with_session (set_messages (Some [system_message prompt])) w))
    as (w1 & -> & Hw1 & _).
  destruct (closing_appends i w1 [system_message prompt])
    as (new & Hm & Hnew & _); [by rewrite Hw1|].
  destruct ((pipeline i;; autoplay;; scroll) w1) as [r w2].
  exists r, w2. split; [reflexivity|].
  right. exists persona, facts, prompt, new. eauto.
Qed.

(** ** The shape of the log *)

Lemma follows_user_appended (after_user : bool) (log new : list message) :
  follows_user after_user log = true →
  appended new →
  follows_user after_user (log ++ new) = true.
Proof.
  revert after_user. induction log as [|m log IH]; intros b Hlog Hnew.
  - destruct Hnew; reflexivity.
  - simpl in *. destruct (role_of m); [done| by apply IH |].
    apply andb_true_iff in Hlog as [-> Hlog]. simpl. by apply IH.
Qed.

Lemma alternates_exchanges (pairs : list (pystr * option pystr)) :
  alternates user (flat_map exchange pairs) = true.
Proof. induction pairs as [|p pairs IH]; [done | exact IH]. Qed.

Lemma length_exchanges (pairs : list (pystr * option pystr)) :
  length (flat_map exchange pairs) = 2 * length pairs.
Proof. induction pairs as [|p pairs IH]; simpl; lia. Qed.

Lemma run_preserves_invariant `{PyLib} (i : inputs) (s : session_state)
    (fs : gmap pystr bytes) :
  log_invariant s → log_invariant (run i s fs).2.(session).
Proof.
  unfold log_invariant, run. intros Hinv.
  set (w := {| session := s; files := fs; page := []; requests := [] |}).
  destruct (messages s) as [log|] eqn:Hlog.
  - destruct Hinv as (prompt & rest & -> & Hrest).
    destruct (script_appends i w _ Hlog) as (new & -> & Hnew & _).
    exists prompt, (rest ++ new). split; [done|].
    by apply follows_user_appended.
  - destruct (script_opens i w Hlog) as (r & w' & Hrun & [Hm | Hopen]);
      rewrite Hrun; simpl; [by rewrite Hm|].
    destruct Hopen as (persona & facts & prompt & new & _ & _ & Hnew & ->).
    exists prompt, new. split; [done|].
    by apply (follows_user_appended false []).
Qed.

Lemma reachable_invariant `{PyLib} (s : session_state) (fs : gmap pystr bytes) :
  reachable s fs → log_invariant s.
Proof.
  induction 1 as [fs | s fs i r w _ IH Hrun]; [exact I|].
  apply (run_preserves_invariant i s fs) in IH. by rewrite Hrun in IH.
Qed.

Lemma reachable_runs `{PyLib} (batch : list inputs) (s : session_state)
    (fs : gmap pystr bytes) :
  reachable s fs → reachable (runs batch s fs).1 (runs batch s fs).2.
Proof.
  revert s fs. induction batch as [|i batch IH]; intros s fs Hs; [done|].
  simpl. apply IH.
  destruct (run i s fs) as [r w] eqn:Hrun. by eapply reachable_run.
Qed.

(** A script run in which every step succeeds appends the user message
    and the reply, stores the audio and asks for a rerun. *)
Lemma script_answered `{PyLib} (i : inputs) (w : world) (log : list message)
    (p : pystr * option pystr) :
  answered i p →
  w.(session).(messages) = Some log →
  ∃ w', script i w = (Raise RerunException, w') ∧
        w'.(session).(messages) = Some (log ++ exchange p) ∧
        is_Some w'.(session).(current_audio).
Proof.
  intros (Hkeys & [[persona facts] Hload] & audio & t & chunks & Haudio
          & Hout & Htext & Hspeech & Hdone & Hsynth) Hlog.
  rewrite missing_keys_spec in Hkeys. injection Hkeys as Hkeys.
  unfold script. unfold mbind at 1, M_bind.
  rewrite validate_keys_unfold, Hkeys.
  unfold mbind at 1, M_bind, call, lift. rewrite Hload; simpl.
  unfold mbind at 1, M_bind.
  unfold init_messages at 1, get_session, mbind at 1, M_bind; simpl.
  rewrite Hlog; simpl.
  unfold mbind at 1, M_bind.
  destruct (init_input_key_spec w) as (w1 & -> & Hw1 & [key Hkey]).
  rewrite Hlog in Hw1.
  unfold mbind at 1, M_bind. unfold pipeline. rewrite Haudio.
  unfold mbind at 1, M_bind.
  rewrite transcription_step_spec, Hout, Htext, Hspeech.
  unfold mbind at 1, M_bind.
  rewrite (append_message_spec _ _ log) by done.
  rewrite (reply_step_spec _ _ (log ++ [user_message p.1])) by done.
  rewrite Hdone, Hsynth. simpl. rewrite Hkey.
  eexists. split; [reflexivity|]. simpl. rewrite <- app_assoc. eauto.
Qed.

Lemma runs_conversation `{PyLib} (batch : list inputs)
    (pairs : list (pystr * option pystr)) (s : session_state)
    (fs : gmap pystr bytes) (log : list message) :
  conversation batch pairs →
  s.(messages) = Some log →
  (runs batch s fs).1.(messages) = Some (log ++ flat_map exchange pairs).
Proof.
  intros Hall. revert s fs log.
  induction Hall as [|i batch pairs Hi _ IH|i p batch pairs Hi _ IH];
    intros s fs log Hlog.
  - simpl. by rewrite app_nil_r.
  - simpl runs. unfold run.
    destruct (script_appends i
                {| session := s; files := fs; page := []; requests := [] |}
                log Hlog) as (new & Hm & _ & Hidle).
    rewrite (Hidle Hi), app_nil_r in Hm. by apply IH.
  - simpl runs. unfold run.
    destruct (script_answered i
                {| session := s; files := fs; page := []; requests := [] |}
                log p Hi Hlog) as (w' & -> & Hw' & _).
    simpl. rewrite (IH _ _ _ Hw'). simpl. by rewrite <- app_assoc.
Qed.

(** ** The conversation log *)

(** C1, as the code has it.  In every reachable session that has a log:
    the log starts with the system message, and after it every message
    is a user or an assistant message, each assistant message directly
    after a user message; a script run only appends to the log; N runs
    in which every step succeeds append N user/assistant pairs, so that
    from the initial log the length is 1 + 2N and the roles alternate. *)
Theorem conversation_log_shape `{PyLib} (s : session_state)
    (fs : gmap pystr bytes) (log : list message) :
  reachable s fs →
  s.(messages) = Some log →
  (∃ prompt rest,
     log = system_message prompt :: rest ∧ follows_user false rest = true) ∧
  (∀ i, ∃ new,
     (run i s fs).2.(session).(messages) = Some (log ++ new) ∧ appended new) ∧
  (∀ batch pairs,
     conversation batch pairs →
     (runs batch s fs).1.(messages) = Some (log ++ flat_map exchange pairs) ∧
     length (log ++ flat_map exchange pairs) = length log + 2 * length pairs ∧
     (length log = 1 →
      strictly_alternating (log ++ flat_map exchange pairs) = true)).
Proof.
  intros Hreach Hlog.
  pose proof (reachable_invariant s fs Hreach) as Hinv.
  unfold log_invariant in Hinv. rewrite Hlog in Hinv.
  split; [exact Hinv|]. split.
  - intros i. unfold run.
    destruct (script_appends i
                {| session := s; files := fs; page := []; requests := [] |}
                log Hlog) as (new & Hm & Hnew & _). eauto.
  - intros batch pairs Hall. split; [by apply runs_conversation|].
    split; [by rewrite length_app, length_exchanges|].
    intros Hone. destruct Hinv as (prompt & rest & -> & _).
    destruct rest; [|discriminate]. simpl. apply alternates_exchanges.
Qed.

Lemma opened_reachable : @reachable example_lib opened ∅.
Proof. exact (@reachable_runs example_lib [idle] new_session ∅ (reachable_new ∅)). Qed.

(** C1, as it is worded, fails: after two runs in which the completion
    failed the log holds two user messages in a row. *)
Lemma user_turns_repeat_after_failure :
  @reachable example_lib stalled ∅ ∧
  stalled.(messages)
    = Some (opening_log ++ [user_message question; user_message question]) ∧
  strictly_alternating
    (opening_log ++ [user_message question; user_message question]) = false.
Proof.
  split; [|split].
  - exact (@reachable_runs example_lib
             [spoken completion_down; spoken completion_down] opened ∅
             opened_reachable).
  - vm_compute. reflexivity.
  - vm_compute. reflexivity.
Qed.

Lemma answered_all_up : answered (spoken all_up) (question, Some answer).
Proof.
  split; [reflexivity|]. split; [by eexists|].
  exists recording, (Plain question), speech. by repeat split.
Qed.

Lemma conversation_log_shape_witness :
  (∃ prompt rest,
     opening_log = system_message prompt :: rest ∧
     follows_user false rest = true) ∧
  (∀ i, ∃ new,
     (@run example_lib i opened ∅).2.(session).(messages)
       = Some (opening_log ++ new) ∧ appended new) ∧
  (∀ batch pairs,
     conversation batch pairs →
     (@runs example_lib batch opened ∅).1.(messages)
       = Some (opening_log ++ flat_map exchange pairs) ∧
     length (opening_log ++ flat_map exchange pairs)
       = length opening_log + 2 * length pairs ∧
     (length opening_log = 1 →
      strictly_alternating (opening_log ++ flat_map exchange pairs) = true)).
Proof.
  exact (@conversation_log_shape example_lib opened ∅ opening_log
           opened_reachable opened_messages).
Defined.

(** ** The system prompt *)

Lemma dict_get_setdefault_eq (key : pystr) (v d : json)
    (members : list (pystr * json)) :
  dict_get (setdefault key v members) key d = dict_get members key v.
Proof.
  induction members as [|[k x] rest IH]; simpl.
  - by rewrite decide_True.
  - destruct (decide (k = key)) as [->|Hne]; simpl.
    + by rewrite decide_True.
    + by rewrite decide_False.
Qed.

Lemma dict_get_setdefault_ne (key key' : pystr) (v d : json)
    (members : list (pystr * json)) :
  key ≠ key' →
  dict_get (setdefault key v members) key' d = dict_get members key' d.
Proof.
  intros Hne. induction members as [|[k x] rest IH]; simpl.
  - by rewrite decide_False.
  - destruct (decide (k = key)) as [->|Hk]; simpl; [done|].
    by rewrite IH.
Qed.

Lemma join_items_strings (n : nat) (items : list json) :
  forallb is_str items = true → ∃ parts, join_items n items = Ok parts.
Proof.
  revert n. induction items as [|v items IH]; intros n Hall; simpl.
  - by eexists.
  - simpl in Hall. apply andb_true_iff in Hall as [Hv Hall].
    destruct v; try discriminate.
    destruct (IH (S n) Hall) as [parts ->]. by eexists.
Qed.

Lemma system_prompt_valid `{PyLib} (persona facts : json) :
  valid_persona persona = true →
  ∃ prompt, system_prompt persona facts = Ok prompt.
Proof.
  destruct persona as [| | | | |items|members]; try discriminate.
  unfold valid_persona, system_prompt, persona_get; simpl.
  destruct (dict_get members (lit "instructions") (JArr [])) as [| | | | |items|];
    try discriminate.
  intros Hall. destruct (join_items_strings 0 items Hall) as [parts Hparts].
  unfold join_lines. rewrite Hparts. by eexists.
Qed.

Ltac distinct_keys := let H := fresh in intros H; vm_compute in H; discriminate H.

Lemma system_prompt_defaults `{PyLib} (members : list (pystr * json))
    (facts : json) :
  system_prompt (JObj (with_defaults members)) facts
    = system_prompt (JObj members) facts.
Proof.
  unfold system_prompt, persona_get, with_defaults; simpl.
  repeat (rewrite ?dict_get_setdefault_eq;
          rewrite ?dict_get_setdefault_ne by distinct_keys).
  reflexivity.
Qed.

(** Past the start-up checks and the loading of the data, the script is
    its remaining blocks. *)
Lemma script_loaded `{PyLib} (i : inputs) (w : world) (persona facts : json) :
  missing_keys i.(cfg) = Ok [] →
  i.(load_data) = Returns (persona, facts) →
  script i w =
    (init_messages persona facts;; init_input_key;; pipeline i;;
     autoplay;; scroll) w.
Proof.
  intros Hkeys Hload. rewrite missing_keys_spec in Hkeys.
  injection Hkeys as Hkeys.
  unfold script. unfold mbind at 1, M_bind.
  rewrite validate_keys_unfold, Hkeys.
  unfold mbind at 1, M_bind, call, lift. by rewrite Hload.
Qed.

Lemma init_messages_fresh `{PyLib} (persona facts : json) (prompt : pystr)
    (w : world) :
  system_prompt persona facts = Ok prompt →
  w.(session).(messages) = None →
  init_messages persona facts w =
    (Ok tt, with_session (set_messages (Some [system_message prompt])) w).
Proof.
  intros Hprompt Hnone.
  unfold init_messages, get_session, lift, mbind, M_bind; simpl.
  by rewrite Hnone, Hprompt.
Qed.

Lemma init_messages_again `{PyLib} (persona facts : json) (w : world)
    (log : list message) :
  w.(session).(messages) = Some log →
  init_messages persona facts w = (Ok tt, w).
Proof.
  intros Hlog. unfold init_messages, get_session, mbind, M_bind; simpl.
  by rewrite Hlog.
Qed.

(** The first script run that gets past start-up and loading. *)
Lemma script_first_run `{PyLib} (i : inputs) (w : world) (persona facts : json)
    (prompt : pystr) :
  missing_keys i.(cfg) = Ok [] →
  i.(load_data) = Returns (persona, facts) →
  system_prompt persona facts = Ok prompt →
  w.(session).(messages) = None →
  ∃ new,
    appended new ∧
    (script i w).2.(session).(messages) = Some (system_message prompt :: new).
Proof.
  intros Hkeys Hload Hprompt Hnone.
  rewrite (script_loaded i w persona facts Hkeys Hload).
  unfold mbind at 1, M_bind.
  rewrite (init_messages_fresh persona facts prompt) by done.
  unfold mbind at 1, M_bind.
  destruct (init_input_key_spec
              (with_session (set_messages (Some [system_message prompt])) w))
    as (w1 & -> & Hw1 & _).
  destruct (closing_appends i w1 [system_message prompt])
    as (new & Hm & Hnew & _); eauto.
Qed.

Lemma join_pieces (sep : pystr) (l1 l2 : list pystr) :
  l1 ≠ [] → l2 ≠ [] →
  join sep (l1 ++ l2) = join sep l1 ++ sep ++ join sep l2.
Proof.
  intros H1 H2. induction l1 as [|p l1 IH]; [done|].
  destruct l1 as [|q l1].
  - simpl. by destruct l2.
  - change (join sep ((p :: q :: l1) ++ l2))
      with (p ++ sep ++ join sep ((q :: l1) ++ l2)).
    rewrite IH by done.
    change (join sep (p :: q :: l1)) with (p ++ sep ++ join sep (q :: l1)).
    by rewrite <- !app_assoc.
Qed.

Lemma dict_get_member (members : list (pystr * json)) (key : pystr)
    (d : json) :
  dict_get members key d = default d (member members key).
Proof.
  induction members as [|[k v] rest IH]; simpl; [done|].
  by destruct (decide (k = key)).
Qed.

Lemma format_field `{PyLib} (members : list (pystr * json))
    (key default : string) :
  format_value (dict_get members (lit key) (JStr (lit default)))
    = field_text members key default.
Proof.
  unfold field_text. rewrite dict_get_member.
  by destruct (member members (lit key)).
Qed.

Lemma join_items_texts (n : nat) (items : list json) :
  forallb is_str items = true →
  join_items n items = Ok (List.map text_of items).
Proof.
  revert n. induction items as [|v items IH]; intros n Hall; simpl; [done|].
  simpl in Hall. apply andb_true_iff in Hall as [Hv Hall].
  destruct v; try discriminate. by rewrite (IH (S n) Hall).
Qed.

Lemma join_instructions (members : list (pystr * json)) :
  valid_persona (JObj members) = true →
  join_lines (dict_get members (lit "instructions") (JArr []))
    = Ok (join [LF] (instruction_lines members)).
Proof.
  unfold valid_persona, instruction_lines. rewrite dict_get_member.
  destruct (member members (lit "instructions")) as [v|]; simpl; [|done].
  destruct v; try discriminate.
  intros Hall. unfold join_lines.
  by rewrite (join_items_texts 0 items Hall).
Qed.

(** The text of the prompt, split at the fixed policy. *)
Lemma prompt_text_split (name role tone speaking_style context instructions
    facts_str : pystr) :
  prompt_text name role tone speaking_style context instructions facts_str =
    join [LF] [
      [];
      lit "    You are " ++ name ++ lit ".";
      lit "    ";
      lit "    **Identity & Behavior:**";
      lit "    " ++ role;
      lit "    Tone: " ++ tone;
      lit "    Speaking Style: " ++ speaking_style;
      lit "    Context: " ++ context;
      lit "    ";
      lit "    **Instructions:**";
      lit "    " ++ instructions;
      lit "    ";
      lit "    **Grounded Facts:**";
      lit "    Use these facts to answer questions. Do not invent contradictory information.";
      lit "    " ++ facts_str
    ] ++ LF :: policy_block.
Proof.
  unfold prompt_text, policy_block.
  rewrite join_pieces; [reflexivity | discriminate |].
  by intros [_ [=]]%app_eq_nil.
Qed.

(** C8.  For a valid persona and any fact sheet the prompt is built, and
    it is this text: the template with each field of the persona in its
    place, the fixed default where the persona has no such field, the
    instruction strings one per line, the dump of the facts, and the
    fixed policy.  It is also the prompt of the persona with the
    defaults written out, and it is the same text in any two script runs
    that load this persona and these facts, whatever else they are
    given. *)
Theorem system_prompt_pure_total `{PyLib} (persona facts : json) :
  valid_persona persona = true →
  ∃ members prompt,
    persona = JObj members ∧
    system_prompt persona facts = Ok prompt ∧
    prompt =
      join [LF] [
        [];
        lit "    You are " ++ field_text members "name" "Danish Akhtar"
          ++ lit ".";
        lit "    ";
        lit "    **Identity & Behavior:**";
        lit "    " ++ field_text members "role" "Voice Agent";
        lit "    Tone: " ++ field_text members "tone" "Professional";
        lit "    Speaking Style: "
          ++ field_text members "speaking_style" "Natural";
        lit "    Context: " ++ field_text members "context" "Interview";
        lit "    ";
        lit "    **Instructions:**";
        lit "    " ++ join [LF] (instruction_lines members);
        lit "    ";
        lit "    **Grounded Facts:**";
        lit "    Use these facts to answer questions. Do not invent contradictory information.";
        lit "    " ++ json_dumps facts
      ] ++ LF :: policy_block ∧
    system_prompt (JObj (with_defaults members)) facts = Ok prompt ∧
    (∀ i w log,
       i.(load_data) = Returns (persona, facts) →
       w.(session).(messages) = None →
       (script i w).2.(session).(messages) = Some log →
       head log = Some (system_message prompt)).
Proof.
  intros Hvalid.
  destruct persona as [| | | | | |members]; try discriminate.
  assert (Hprompt : system_prompt (JObj members) facts =
            Ok (prompt_text
                  (field_text members "name" "Danish Akhtar")
                  (field_text members "role" "Voice Agent")
                  (field_text members "tone" "Professional")
                  (field_text members "speaking_style" "Natural")
                  (field_text members "context" "Interview")
                  (join [LF] (instruction_lines members))
                  (json_dumps facts))).
  { unfold system_prompt, persona_get, mbind, result_bind.
    rewrite (join_instructions members Hvalid).
    by rewrite !format_field. }
  eexists members, _. split; [done|]. split; [exact Hprompt|].
  split; [apply prompt_text_split|]. split.
  - by rewrite system_prompt_defaults.
  - intros i w log Hload Hnone Hlog.
    destruct (script_opens i w Hnone) as (r & w' & Hrun & [Hm | Hopen]);
      rewrite Hrun in Hlog; simpl in Hlog; [congruence|].
    destruct Hopen as (persona' & facts' & prompt' & new & Hload' & Hprompt'
                       & _ & Hm).
    rewrite Hload in Hload'. injection Hload' as <- <-.
    rewrite Hprompt in Hprompt'. injection Hprompt' as <-.
    rewrite Hm in Hlog. by injection Hlog as <-.
Qed.

Lemma system_prompt_pure_total_witness :
  ∃ members prompt,
    dan = JObj members ∧
    @system_prompt example_lib dan no_facts = Ok prompt ∧
    prompt =
      join [LF] [
        [];
        lit "    You are "
          ++ @field_text example_lib members "name" "Danish Akhtar"
          ++ lit ".";
        lit "    ";
        lit "    **Identity & Behavior:**";
        lit "    " ++ @field_text example_lib members "role" "Voice Agent";
        lit "    Tone: "
          ++ @field_text example_lib members "tone" "Professional";
        lit "    Speaking Style: "
          ++ @field_text example_lib members "speaking_style" "Natural";
        lit "    Context: "
          ++ @field_text example_lib members "context" "Interview";
        lit "    ";
        lit "    **Instructions:**";
        lit "    " ++ join [LF] (instruction_lines members);
        lit "    ";
        lit "    **Grounded Facts:**";
        lit "    Use these facts to answer questions. Do not invent contradictory information.";
        lit "    " ++ @json_dumps example_lib no_facts
      ] ++ LF :: policy_block ∧
    @system_prompt example_lib (JObj (with_defaults members)) no_facts
      = Ok prompt ∧
    (∀ i w log,
       i.(load_data) = Returns (dan, no_facts) →
       w.(session).(messages) = None →
       (@script example_lib i w).2.(session).(messages) = Some log →
       head log = Some (system_message prompt)).
Proof.
  exact (@system_prompt_pure_total example_lib dan no_facts eq_refl).
Defined.

(** The prompt of the worked session, line by line: the name of the
    persona, and the defaults for the fields it does not have. *)
Example scenario_prompt_of_dan :
  @system_prompt example_lib dan no_facts =
    Ok (join [LF] [
          [];
          lit "    You are Dan.";
          lit "    ";
          lit "    **Identity & Behavior:**";
          lit "    Voice Agent";
          lit "    Tone: Professional";
          lit "    Speaking Style: Natural";
          lit "    Context: Interview";
          lit "    ";
          lit "    **Instructions:**";
          lit "    ";
          lit "    ";
          lit "    **Grounded Facts:**";
          lit "    Use these facts to answer questions. Do not invent contradictory information.";
          lit "    {}"
        ] ++ LF :: policy_block).
Proof. vm_compute. reflexivity. Qed.

(** ** Session initialisation *)

(** C9.  For a valid persona: on a session without a log the
    initialisation block creates the log of one message, the system
    message with the prompt built from the loaded persona and facts, and
    the first script run that gets that far starts the log with it; on a
    session that has a log the block does nothing and the script run
    keeps the log it found, so the block takes effect once. *)
Theorem session_initialised_once `{PyLib} (persona facts : json) (w : world) :
  valid_persona persona = true →
  ∃ prompt,
    system_prompt persona facts = Ok prompt ∧
    (w.(session).(messages) = None →
     init_messages persona facts w =
       (Ok tt, with_session (set_messages (Some [system_message prompt])) w) ∧
     ∀ i, missing_keys i.(cfg) = Ok [] →
          i.(load_data) = Returns (persona, facts) →
          ∃ new, (script i w).2.(session).(messages)
                   = Some (system_message prompt :: new)) ∧
    (∀ log,
       w.(session).(messages) = Some log →
       init_messages persona facts w = (Ok tt, w) ∧
       ∀ i, ∃ new, (script i w).2.(session).(messages) = Some (log ++ new)).
Proof.
  intros Hvalid.
  destruct (system_prompt_valid persona facts Hvalid) as [prompt Hprompt].
  exists prompt. split; [done|]. split.
  - intros Hnone. split; [by apply init_messages_fresh|].
    intros i Hkeys Hload.
    destruct (script_first_run i w persona facts prompt) as (new & _ & Hm);
      eauto.
  - intros log Hlog. split; [by eapply init_messages_again|].
    intros i. destruct (script_appends i w log Hlog) as (new & Hm & _). eauto.
Qed.

Lemma session_initialised_once_witness :
  ∃ prompt,
    @system_prompt example_lib dan no_facts = Ok prompt ∧
    ((blank_world new_session).(session).(messages) = None →
     @init_messages example_lib dan no_facts (blank_world new_session) =
       (Ok tt,
        with_session (set_messages (Some [system_message prompt]))
          (blank_world new_session)) ∧
     ∀ i, missing_keys i.(cfg) = Ok [] →
          i.(load_data) = Returns (dan, no_facts) →
          ∃ new, (@script example_lib i (blank_world new_session)).2
                   .(session).(messages)
                   = Some (system_message prompt :: new)) ∧
    (∀ log,
       (blank_world new_session).(session).(messages) = Some log →
       @init_messages example_lib dan no_facts (blank_world new_session)
         = (Ok tt, blank_world new_session) ∧
       ∀ i, ∃ new, (@script example_lib i (blank_world new_session)).2
                     .(session).(messages) = Some (log ++ new)).
Proof.
  exact (@session_initialised_once example_lib dan no_facts
           (blank_world new_session) eq_refl).
Defined.

(** ** The scenarios of the design document *)

(** The recording is transcribed to the question, the completion is
    called with the system message and the question, the reply is
    synthesised: the log has three messages and the audio waits for the
    rerun, which plays it once and discards it. *)
Example scenario_question_answered :
  conversation [spoken all_up; idle] [(question, Some answer)] ∧
  (let w := (@run example_lib (spoken all_up) opened ∅).2 in
   w.(session).(messages)
     = Some (opening_log
               ++ [user_message question; assistant_message (Some answer)]) ∧
   length (default [] w.(session).(messages)) = 3 ∧
   w.(session).(current_audio) = Some (concat speech) ∧
   w.(requests) = [Transcription; Completion; Synthesis] ∧
   let w' := (@run example_lib idle w.(session) w.(files)).2 in
   w'.(page) = [StAudio (concat speech); ScrollScript] ∧
   w'.(session).(current_audio) = None ∧
   w'.(session).(messages) = w.(session).(messages)).
Proof.
  split.
  - apply conversation_turn; [exact answered_all_up|].
    apply conversation_idle; [reflexivity | constructor].
  - vm_compute. repeat split.
Qed.

(** With the Groq key alone the script stops, and the notice names the
    two other keys. *)
Example scenario_two_keys_missing :
  validate_keys groq_only (blank_world new_session) =
    (Raise StopException,
     {| session := new_session; files := ∅;
        page := [StError
                   (lit "Missing API keys: OPENAI_API_KEY, ELEVENLABS_API_KEY")];
        requests := [] |}).
Proof. vm_compute. reflexivity. Qed.

(** A persona whose [instructions] hold a number is not valid, and the
    prompt is not built: [join] raises. *)
Example scenario_invalid_persona :
  @system_prompt example_lib
    (JObj [(lit "instructions", JArr [JStr (lit "Be brief."); JInt 3])])
    no_facts
  = Raise (Exception (lit "sequence item 1: expected str instance, int found")).
Proof. vm_compute. reflexivity. Qed.

(** * Further properties *)

(** ** The history on the page *)

Lemma search_assistant_skips (later rest : list message) (i : Z) :
  (∀ m, m ∈ later → is_assistant m = false) →
  search_assistant (later ++ rest) i
    = search_assistant rest (i - Z.of_nat (length later))%Z.
Proof.
  revert i. induction later as [|m later IH]; intros i Hnone; simpl.
  - f_equal. lia.
  - rewrite (Hnone m) by (apply elem_of_cons; by left).
    rewrite IH by (intros; apply Hnone, elem_of_cons; by right). f_equal. lia.
Qed.

Lemma last_assistant_idx_none_aux (history : list message) :
  last_assistant_idx history = (-1)%Z
  ↔ ∀ m, m ∈ history → is_assistant m = false.
Proof.
  unfold last_assistant_idx.
  assert (Hgen : ∀ (l : list message) (i : Z),
            (0 ≤ i - Z.of_nat (length l) + 1)%Z →
            search_assistant l i = (-1)%Z
            ↔ ∀ m, m ∈ l → is_assistant m = false).
  { induction l as [|m l IH]; intros i Hi; simpl.
    - split; [intros _ m Hm; by apply elem_of_nil in Hm | done].
    - destruct (is_assistant m) eqn:Hm.
      + split.
        * simpl in Hi. lia.
        * intros Hall. rewrite (Hall m) in Hm by (apply elem_of_cons; by left).
          discriminate.
      + rewrite IH by (simpl in Hi; lia). split.
        * intros Hall m' [->|Hin]%elem_of_cons; eauto.
        * intros Hall m' Hin. apply Hall, elem_of_cons. by right. }
  rewrite Hgen by (rewrite length_rev; lia).
  split; intros Hall m Hm; apply Hall.
  - apply list_elem_of_In, in_rev, list_elem_of_In in Hm. done.
  - apply list_elem_of_In, in_rev. by apply list_elem_of_In.
Qed.

Lemma last_assistant_idx_found_aux (before after : list message) (m : message) :
  is_assistant m = true →
  (∀ m', m' ∈ after → is_assistant m' = false) →
  last_assistant_idx (before ++ m :: after) = Z.of_nat (length before).
Proof.
  intros Hm Hafter. unfold last_assistant_idx.
  rewrite rev_app_distr. simpl. rewrite <- app_assoc. simpl.
  rewrite search_assistant_skips.
  - simpl. rewrite Hm. rewrite length_rev, length_app. simpl. lia.
  - intros m' Hin. apply Hafter.
    apply list_elem_of_In, in_rev. by apply list_elem_of_In.
Qed.

Lemma replies_none (log : list message) :
  replies log = 0 ↔ ∀ m, m ∈ log → is_assistant m = false.
Proof.
  unfold replies. induction log as [|m log IH]; simpl.
  - split; [|done]. intros _ m Hm. by apply elem_of_nil in Hm.
  - destruct (is_assistant m) eqn:E; simpl.
    + split; [discriminate|]. intros Hall.
      rewrite (Hall m) in E by (apply elem_of_cons; by left). discriminate.
    + rewrite IH. split.
      * intros Hall m' [->|Hin]%elem_of_cons; eauto.
      * intros Hall m' Hin. apply Hall, elem_of_cons. by right.
Qed.

(** X1.  The search of l. 508-512 returns [-1] exactly for a history
    without an assistant message. *)
Theorem last_assistant_idx_none (history : list message) :
  last_assistant_idx history = (-1)%Z ↔ replies history = 0.
Proof. rewrite replies_none. apply last_assistant_idx_none_aux. Qed.

(** X2.  In a history with an assistant message the search returns the
    index of the last one. *)
Theorem last_assistant_idx_found (before after : list message) (m : message) :
  is_assistant m = true →
  replies after = 0 →
  last_assistant_idx (before ++ m :: after) = Z.of_nat (length before).
Proof.
  intros Hm Hafter. apply last_assistant_idx_found_aux; [done|].
  by apply replies_none.
Qed.

Lemma render_from_app (last_idx i : Z) (l1 l2 : list message) :
  render_from last_idx i (l1 ++ l2)
    = render_from last_idx i l1
        ++ render_from last_idx (i + Z.of_nat (length l1))%Z l2.
Proof.
  revert i. induction l1 as [|m l1 IH]; intros i; simpl.
  - f_equal. lia.
  - rewrite IH. replace (i + 1 + Z.of_nat (length l1))%Z
      with (i + Z.pos (Pos.of_succ_nat (length l1)))%Z by lia.
    by destruct (role_of m).
Qed.

Lemma render_from_elsewhere (last_idx i : Z) (msgs : list message) :
  (i + Z.of_nat (length msgs) ≤ last_idx ∨ last_idx < i)%Z →
  render_from last_idx i msgs = faded msgs.
Proof.
  revert i. induction msgs as [|m msgs IH]; intros i Hi; simpl; [done|].
  rewrite IH by (simpl in Hi; lia).
  destruct (role_of m); [done..|].
  destruct (Z.eqb_spec i last_idx); [simpl in Hi; lia | done].
Qed.

(** X3.  A history of more than one message is rendered in order, the
    system message left out, each user message as a user block and each
    assistant message as a faded block, except the last assistant
    message, which gets the emphasised block. *)
Theorem render_history_emphasises_last
    (before after : list message) (m : message) :
  is_assistant m = true →
  replies after = 0 →
  1 < length (before ++ m :: after) →
  render_history (before ++ m :: after)
    = faded before ++ MsgAssistantLatest m.(content) :: faded after.
Proof.
  intros Hm Hafter Hlen. unfold render_history.
  pose proof (proj1 (replies_none after) Hafter) as Hnone. clear Hafter.
  rename Hnone into Hafter.
  rewrite decide_True by done.
  rewrite (last_assistant_idx_found_aux before after m Hm Hafter).
  rewrite render_from_app. simpl.
  rewrite !render_from_elsewhere by lia.
  unfold is_assistant in Hm. destruct (role_of m); try discriminate.
  by rewrite Z.eqb_refl.
Qed.

(** X4.  A history without an assistant message has no emphasised
    block, and a history of at most one message, such as the log of a
    session that has just opened, shows nothing. *)
Theorem render_history_without_reply (history : list message) :
  replies history = 0 →
  render_history history
    = if decide (1 < length history) then faded history else [].
Proof.
  intros Hzero. pose proof (proj1 (replies_none history) Hzero) as Hnone.
  unfold render_history. case_decide; [|done].
  apply render_from_elsewhere. right.
  rewrite (proj2 (last_assistant_idx_none_aux history) Hnone). lia.
Qed.

(** ** The audio widget *)

Lemma lit_chars (s : string) :
  List.map ascii_of_N (lit s) = list_ascii_of_string s.
Proof.
  unfold lit. induction (list_ascii_of_string s) as [|a l IH]; simpl; [done|].
  by rewrite ascii_N_embedding, IH.
Qed.

Lemma lit_inj (s1 s2 : string) : lit s1 = lit s2 → s1 = s2.
Proof.
  intros H. apply (f_equal (List.map ascii_of_N)) in H.
  rewrite !lit_chars in H.
  rewrite <- (string_of_list_ascii_of_string s1),
          <- (string_of_list_ascii_of_string s2).
  by rewrite H.
Qed.

Lemma to_int_proper (z : Z) :
  Z.to_int z ≠ Decimal.Pos Decimal.Nil ∧ Z.to_int z ≠ Decimal.Neg Decimal.Nil.
Proof.
  destruct z as [|p|p]; simpl; split; try discriminate;
    intros [= H]; by apply DecimalPos.Unsigned.to_uint_nonnil in H.
Qed.

(** X5.  The key of the audio widget determines [input_key]: two
    different values of [input_key] give two different widgets. *)
Theorem audio_input_key_inj (k1 k2 : Z) :
  audio_input_key k1 = audio_input_key k2 → k1 = k2.
Proof.
  unfold audio_input_key. intros H.
  apply app_inv_head, lit_inj in H.
  apply (f_equal NilZero.int_of_string) in H.
  destruct (to_int_proper k1) as [Hp1 Hn1], (to_int_proper k2) as [Hp2 Hn2].
  rewrite !NilZero.isi in H by done.
  injection H as H. apply (f_equal Z.of_int) in H.
  by rewrite !DecimalZ.of_to in H.
Qed.

Lemma audio_input_key_inj_witness :
  audio_input_key 3 = lit "audio_input_3" ∧ (3 : Z) = 3%Z.
Proof. split; [reflexivity | exact (audio_input_key_inj 3 3 eq_refl)]. Defined.

(** ** The script, path by path *)

Lemma init_input_key_eq (w : world) :
  init_input_key w = (Ok tt, with_session keyed w).
Proof.
  unfold init_input_key, get_session, modify_session, with_session, keyed,
    mbind, M_bind; simpl.
  destruct w as [s fs pg rq]; simpl. by destruct (input_key s).
Qed.

Lemma autoplay_eq (w : world) : autoplay w = (Ok tt, played w).
Proof.
  unfold autoplay, played, get_session, mbind, M_bind; simpl.
  by destruct (current_audio (session w)) as [[|b data]|].
Qed.

Lemma scroll_eq (w : world) (log : list message) :
  w.(session).(messages) = Some log → scroll w = (Ok tt, scrolled w).
Proof.
  intros Hlog. unfold scroll, scrolled, attribute, get_session, mbind, M_bind.
  rewrite Hlog. simpl. by case_decide.
Qed.

Lemma pipeline_eq (i : inputs) (w : world) (log : list message) :
  w.(session).(messages) = Some log →
  pipeline i w =
    match i.(audio_value) with
    | None => (Ok tt, w)
    | Some audio =>
        match transcription_outcome i audio with
        | Raises msg => (Ok tt, unheard i audio msg w)
        | Returns t =>
            match user_text_of t with
            | None => (Ok tt, heard i w)
            | Some text =>
                if has_speech (Some text) then
                  reply_step i
                    (with_session
                       (set_messages (Some (log ++ [user_message text])))
                       (heard i w))
                else (Ok tt, heard i w)
            end
        end
    end.
Proof.
  intros Hlog. unfold pipeline.
  destruct (audio_value i) as [audio|]; [|done].
  unfold mbind at 1, M_bind. rewrite transcription_step_spec.
  destruct (transcription_outcome i audio) as [t|msg]; [|done].
  fold (heard i w).
  destruct (user_text_of t) as [text|]; [|done].
  destruct (has_speech (Some text)); [|done].
  unfold mbind, M_bind.
  by rewrite (append_message_spec _ _ log).
Qed.

Lemma after_init_eq (i : inputs) (w : world) (log : list message) :
  w.(session).(messages) = Some log →
  after_init i w =
    match pipeline i (with_session keyed w) with
    | (Ok _, w1) => (Ok tt, scrolled (played w1))
    | (Raise e, w1) => (Raise e, w1)
    end.
Proof.
  intros Hlog. unfold after_init.
  unfold mbind at 1, M_bind. rewrite init_input_key_eq.
  assert (Hkeyed : (with_session keyed w).(session).(messages) = Some log).
  { simpl. unfold keyed. by destruct (input_key (session w)). }
  destruct (pipeline_appends i _ log Hkeyed)
    as (new & r & w1 & Hrun & _ & Hm & _).
  unfold mbind at 1, M_bind. rewrite Hrun.
  destruct r as [[]|e]; [|done].
  unfold mbind, M_bind. rewrite autoplay_eq.
  apply (scroll_eq _ (log ++ new)).
  unfold played. by destruct (current_audio (session w1)) as [[|b data]|].
Qed.

Lemma script_eq `{PyLib} (i : inputs) (w : world) :
  script i w =
    match missing_of i.(cfg) with
    | [] =>
        match i.(load_data) with
        | Raises msg => (Raise (Exception msg), w)
        | Returns (persona, facts) =>
            match w.(session).(messages) with
            | Some _ => after_init i w
            | None =>
                match system_prompt persona facts with
                | Ok prompt =>
                    after_init i
                      (with_session
                         (set_messages (Some [system_message prompt])) w)
                | Raise e => (Raise e, w)
                end
            end
        end
    | missing =>
        (Raise StopException,
         {| session := w.(session); files := w.(files);
            page := w.(page) ++ [StError (missing_message missing)];
            requests := w.(requests) |})
    end.
Proof.
  unfold script. unfold mbind at 1, M_bind. rewrite validate_keys_unfold.
  destruct (missing_of (cfg i)); [|done].
  unfold mbind at 1, M_bind, call, lift.
  destruct (load_data i) as [[persona facts]|msg]; [|done]. simpl.
  unfold mbind at 1, M_bind.
  unfold init_messages, get_session, modify_session, lift, mbind at 1, M_bind.
  simpl.
  destruct (messages (session w)) as [log|] eqn:Hlog; [done|].
  unfold mbind at 1, M_bind.
  by destruct (system_prompt persona facts).
Qed.

Lemma keyed_messages (s : session_state) : (keyed s).(messages) = s.(messages).
Proof. unfold keyed. by destruct (input_key s). Qed.

Lemma keyed_input_key (s : session_state) :
  (keyed s).(input_key) = Some (default 0%Z s.(input_key)).
Proof. unfold keyed. by destruct (input_key s) eqn:E; simpl; rewrite ?E. Qed.

(** The paths of [after_init] on a session that has the log [log]: the
    goal is split along the outcomes of the external calls. *)
Ltac after_init_paths i log :=
  rewrite (after_init_eq i _ log) by done;
  rewrite (pipeline_eq i _ log) by (simpl; by rewrite keyed_messages);
  destruct (audio_value i) as [?audio|] eqn:?;
  [ destruct (transcription_outcome i _) as [?t|?msg] eqn:?;
    [ destruct (user_text_of _) as [?text|] eqn:?;
      [ destruct (has_speech (Some _)) eqn:?;
        [ erewrite reply_step_spec by (simpl; reflexivity);
          destruct (complete (svc i) _) as [?bot_text|?msg] eqn:?;
          [ destruct (synthesize (svc i) _) as [?chunks|?msg] eqn:?;
            [ simpl input_key; rewrite keyed_input_key |]
          |]
        |]
      |]
    |]
  |].

Lemma after_init_requests (i : inputs) (w : world) (log : list message) :
  w.(session).(messages) = Some log →
  ∃ asked, (after_init i w).2.(requests) = w.(requests) ++ asked ∧
           asked `prefix_of` pipeline_order.
Proof.
  intros Hlog. unfold pipeline_order.
  assert (Hnone : [] `prefix_of` [Transcription; Completion; Synthesis])
    by apply prefix_nil.
  assert (Hone : [Transcription] `prefix_of`
                   [Transcription; Completion; Synthesis])
    by (by exists [Completion; Synthesis]).
  assert (Htwo : [Transcription; Completion] `prefix_of`
                   [Transcription; Completion; Synthesis])
    by (by exists [Synthesis]).
  after_init_paths i log; simpl.
  all: unfold scrolled, played, unheard, heard, asked; simpl.
  all: repeat case_match; simpl.
  all: try (exists [Transcription; Completion; Synthesis];
            by rewrite <- ?app_assoc).
  all: try (exists [Transcription; Completion]; by rewrite <- ?app_assoc).
  all: try (exists [Transcription]; by rewrite <- ?app_assoc).
  all: try (exists []; by rewrite ?app_nil_r).
Qed.

Lemma replies_app (l1 l2 : list message) :
  replies (l1 ++ l2) = replies l1 + replies l2.
Proof. unfold replies. by rewrite List.filter_app, length_app. Qed.

Lemma after_init_files (i : inputs) (w : world) (log : list message)
    (path : pystr) :
  w.(session).(messages) = Some log →
  path ≠ i.(tmp_name) →
  (after_init i w).2.(files) !! path = w.(files) !! path.
Proof.
  intros Hlog Hpath.
  after_init_paths i log; simpl.
  all: unfold scrolled, played, unheard, heard; simpl.
  all: repeat case_match; simpl.
  all: by rewrite ?lookup_delete_ne, ?lookup_insert_ne.
Qed.

Lemma after_init_result (i : inputs) (w : world) (log : list message) :
  w.(session).(messages) = Some log →
  (after_init i w).1 = Ok tt ∨ (after_init i w).1 = Raise RerunException.
Proof.
  intros Hlog.
  after_init_paths i log; simpl; eauto.
Qed.

Lemma after_init_session (i : inputs) (w : world) (log : list message) :
  w.(session).(messages) = Some log →
  ∃ new,
    (after_init i w).2.(session).(messages) = Some (log ++ new) ∧
    (after_init i w).2.(session).(input_key)
      = Some (match (after_init i w).1 with
              | Raise RerunException =>
                  default 0 w.(session).(input_key) + 1
              | _ => default 0 w.(session).(input_key)
              end)%Z ∧
    match (after_init i w).1 with
    | Raise RerunException => replies new = 1
    | _ => replies new ≤ 1
    end.
Proof.
  intros Hlog.
  after_init_paths i log; simpl.
  all: unfold scrolled, played, unheard, heard, replied; simpl;
    rewrite ?keyed_messages, ?keyed_input_key, ?Hlog.
  all: repeat case_match; simpl;
    rewrite ?keyed_messages, ?keyed_input_key, ?Hlog.
  all: try (exists []; rewrite app_nil_r; simpl; split; [done|];
            split; [done|]; unfold replies; simpl; lia).
  all: try (eexists [user_message _; assistant_message _];
            rewrite <- !app_assoc; simpl; split; [done|];
            split; [done|]; unfold replies; simpl; lia).
  all: try (eexists [user_message _];
            rewrite <- ?app_assoc; simpl; split; [done|];
            split; [done|]; unfold replies; simpl; lia).
Qed.

Lemma after_init_rerun (i : inputs) (w : world) (log : list message) :
  w.(session).(messages) = Some log →
  (after_init i w).1 = Raise RerunException →
  ∃ text bot_text chunks,
    (after_init i w).2.(session).(messages)
      = Some (log ++ [user_message text; assistant_message bot_text]) ∧
    i.(svc).(complete) (log ++ [user_message text]) = Returns bot_text ∧
    i.(svc).(synthesize) bot_text = Returns chunks ∧
    (after_init i w).2.(session).(current_audio) = Some (concat chunks) ∧
    (after_init i w).2.(session).(scroll_after_message) = Some true ∧
    (after_init i w).2.(page) = w.(page) ∧
    (after_init i w).2.(requests) = w.(requests) ++ pipeline_order.
Proof.
  intros Hlog.
  after_init_paths i log; simpl; try discriminate.
  intros _. exists text, bot_text, chunks.
  rewrite <- !app_assoc. by repeat split.
Qed.

Lemma after_init_notices (i : inputs) (w : world) (log : list message) :
  w.(session).(messages) = Some log →
  length (List.filter is_error (after_init i w).2.(page))
    ≤ S (length (List.filter is_error w.(page))).
Proof.
  intros Hlog.
  after_init_paths i log; simpl.
  all: unfold scrolled, played, unheard, heard; simpl.
  all: repeat case_match; simpl.
  all: rewrite ?List.filter_app, ?length_app; simpl; lia.
Qed.

Lemma after_init_idle (i : inputs) (w : world) (log : list message) :
  w.(session).(messages) = Some log →
  i.(audio_value) = None →
  after_init i w = (Ok tt, scrolled (played (with_session keyed w))).
Proof.
  intros Hlog Hidle.
  rewrite (after_init_eq i _ log) by done.
  rewrite (pipeline_eq i _ log) by (simpl; by rewrite keyed_messages).
  by rewrite Hidle.
Qed.

Lemma closing_frame (w : world) :
  (scrolled (played w)).(requests) = w.(requests) ∧
  (scrolled (played w)).(files) = w.(files) ∧
  (scrolled (played w)).(session).(messages) = w.(session).(messages) ∧
  (scrolled (played w)).(session).(input_key) = w.(session).(input_key).
Proof.
  unfold scrolled, played.
  destruct (current_audio (session w)) as [[|b data]|]; simpl;
    destruct (messages (session w)) as [log|] eqn:Hm; simpl;
    rewrite ?Hm; try done;
    case_decide; simpl; by rewrite ?Hm.
Qed.

Lemma join_items_raises (n : nat) (items : list json) (e : signal) :
  join_items n items = Raise e → ∃ msg, e = Exception msg.
Proof.
  revert n. induction items as [|v items IH]; intros n; simpl; [discriminate|].
  destruct v; try (intros [= <-]; by eexists).
  destruct (join_items (S n) items) as [parts|e'] eqn:E; simpl;
    [discriminate|].
  intros [= <-]. by eapply IH.
Qed.

(** What the construction of the prompt raises is an exception, never a
    script-control signal. *)
Lemma system_prompt_raises `{PyLib} (persona facts : json) (e : signal) :
  system_prompt persona facts = Raise e → ∃ msg, e = Exception msg.
Proof.
  unfold system_prompt, persona_get.
  destruct persona; try (intros [= <-]; by eexists).
  unfold mbind, result_bind, join_lines.
  destruct (dict_get members (lit "instructions") (JArr []));
    try discriminate; try (intros [= <-]; by eexists).
  destruct (join_items 0 items) as [parts|e'] eqn:E; [discriminate|].
  intros [= <-]. by eapply join_items_raises.
Qed.

(** The worlds [after_init] is run on by [script]. *)
Ltac script_paths i w :=
  rewrite script_eq;
  destruct (missing_of (cfg i)) as [|?key ?missing] eqn:?;
  [ destruct (load_data i) as [[?persona ?facts]|?msg] eqn:?;
    [ destruct (messages (session w)) as [?log|] eqn:?;
      [| destruct (system_prompt _ _) as [?prompt|?e] eqn:? ]
    |]
  |].

(** ** What a script run asks of the services *)

(** X6.  In every script run the requests made are a prefix of
    transcription, completion, synthesis: each service is asked at most
    once, completion only after transcription, synthesis only after
    completion. *)
Theorem requests_in_order `{PyLib} (i : inputs) (s : session_state)
    (fs : gmap pystr bytes) :
  (run i s fs).2.(requests) `prefix_of` pipeline_order.
Proof.
  unfold run.
  set (w := {| session := s; files := fs; page := []; requests := [] |}).
  script_paths i w; simpl; try apply prefix_nil.
  - destruct (after_init_requests i w log) as (asked & -> & Hasked); done.
  - destruct (after_init_requests i
                (with_session (set_messages (Some [system_message prompt])) w)
                [system_message prompt]) as (asked & -> & Hasked); done.
Qed.

(** X7.  With nothing in the audio widget a script run asks no service,
    leaves the files as they are and leaves the log it found as it is. *)
Theorem idle_run_is_quiet `{PyLib} (i : inputs) (s : session_state)
    (fs : gmap pystr bytes) :
  i.(audio_value) = None →
  (run i s fs).2.(requests) = [] ∧
  (run i s fs).2.(files) = fs ∧
  (∀ log, s.(messages) = Some log →
          (run i s fs).2.(session).(messages) = Some log).
Proof.
  intros Hidle. unfold run.
  set (w := {| session := s; files := fs; page := []; requests := [] |}).
  script_paths i w; simpl; try done.
  - rewrite (after_init_idle i w log) by done. cbn [snd].
    destruct (closing_frame (with_session keyed w)) as (-> & -> & -> & _).
    simpl. rewrite keyed_messages. by repeat split.
  - rewrite (after_init_idle i _ [system_message prompt]) by done. cbn [snd].
    destruct (closing_frame
                (with_session keyed
                   (with_session
                      (set_messages (Some [system_message prompt])) w)))
      as (-> & -> & _).
    simpl in *. repeat split; try done. congruence.
Qed.

(** ** What a script run does to the files *)

(** X8.  A script run touches no file but its own temporary file. *)
Theorem script_touches_only_temp_file `{PyLib} (i : inputs)
    (s : session_state) (fs : gmap pystr bytes) (path : pystr) :
  path ≠ i.(tmp_name) →
  (run i s fs).2.(files) !! path = fs !! path.
Proof.
  intros Hpath. unfold run.
  set (w := {| session := s; files := fs; page := []; requests := [] |}).
  script_paths i w; simpl; try done.
  - by rewrite (after_init_files i w log).
  - by rewrite (after_init_files i _ [system_message prompt]).
Qed.

(** ** How a script run ends *)

(** X9.  Once the keys are there, the data is loaded and the log exists
    or can be opened, no failure of a service ends the script: the run
    ends normally or with the rerun the script asks for itself. *)
Theorem service_failures_are_caught `{PyLib} (i : inputs) (s : session_state)
    (fs : gmap pystr bytes) (persona facts : json) :
  missing_keys i.(cfg) = Ok [] →
  i.(load_data) = Returns (persona, facts) →
  is_Some s.(messages) ∨ valid_persona persona = true →
  (run i s fs).1 = Ok tt ∨ (run i s fs).1 = Raise RerunException.
Proof.
  intros Hkeys Hload Hlog. rewrite missing_keys_spec in Hkeys.
  injection Hkeys as Hkeys. unfold run.
  set (w := {| session := s; files := fs; page := []; requests := [] |}).
  script_paths i w; try discriminate.
  - by apply (after_init_result i w log).
  - by apply (after_init_result i _ [system_message prompt]).
  - destruct Hlog as [[log Hlog]|Hvalid]; [simpl in *; congruence|].
    injection Hload as <- <-.
    destruct (system_prompt_valid persona0 facts0 Hvalid) as [prompt Hp].
    congruence.
Qed.

(** X10.  A script run ends with a rerun only after a whole turn: the
    three services were asked and answered, the log the run started
    from (the log of the session, or the freshly opened log of one
    system message when the session had none) has grown by the user
    message and the reply, the audio of the reply is stored for
    playback, and no notice is on the page. *)
Theorem rerun_follows_whole_turn `{PyLib} (i : inputs) (s : session_state)
    (fs : gmap pystr bytes) :
  (run i s fs).1 = Raise RerunException →
  ∃ log text bot_text chunks,
    (s.(messages) = Some log ∨
     s.(messages) = None ∧
     ∃ persona facts prompt,
       i.(load_data) = Returns (persona, facts) ∧
       system_prompt persona facts = Ok prompt ∧
       log = [system_message prompt]) ∧
    (run i s fs).2.(session).(messages)
      = Some (log ++ [user_message text; assistant_message bot_text]) ∧
    i.(svc).(complete) (log ++ [user_message text]) = Returns bot_text ∧
    i.(svc).(synthesize) bot_text = Returns chunks ∧
    (run i s fs).2.(session).(current_audio) = Some (concat chunks) ∧
    (run i s fs).2.(page) = [] ∧
    (run i s fs).2.(requests) = pipeline_order.
Proof.
  unfold run.
  set (w := {| session := s; files := fs; page := []; requests := [] |}).
  script_paths i w; try discriminate.
  - intros Hrerun.
    destruct (after_init_rerun i w log)
      as (text & bot_text & chunks & Hm & Hc & Hs & Ha & _ & Hp & Hr);
      [done..|].
    exists log, text, bot_text, chunks. split; [by left | done].
  - intros Hrerun.
    destruct (after_init_rerun i
                (with_session (set_messages (Some [system_message prompt])) w)
                [system_message prompt])
      as (text & bot_text & chunks & Hm & Hc & Hs & Ha & _ & Hp & Hr);
      [done..|].
    exists [system_message prompt], text, bot_text, chunks.
    split; [|done]. right. split; [done|]. by exists persona, facts, prompt.
  - intros Hrerun. simpl in Hrerun.
    destruct (system_prompt_raises persona facts e) as [msg ->]; [done|].
    discriminate.
Qed.

(** X11.  The counter behind the key of the audio widget moves exactly
    in the runs that end with a rerun, and then by one: a recording is
    kept in its widget until a whole turn has used it. *)
Theorem input_key_advances_with_rerun `{PyLib} (i : inputs)
    (s : session_state) (fs : gmap pystr bytes) (key : Z) :
  s.(input_key) = Some key →
  (run i s fs).2.(session).(input_key)
    = Some (match (run i s fs).1 with
            | Raise RerunException => key + 1
            | _ => key
            end)%Z.
Proof.
  intros Hkey. unfold run.
  set (w := {| session := s; files := fs; page := []; requests := [] |}).
  script_paths i w; simpl; try done.
  - destruct (after_init_session i w log) as (new & _ & -> & _); [done|].
    simpl. by rewrite Hkey.
  - destruct (after_init_session i
                (with_session (set_messages (Some [system_message prompt])) w)
                [system_message prompt]) as (new & _ & -> & _); [done|].
    simpl. by rewrite Hkey.
  - by destruct (system_prompt_raises persona facts e) as [msg ->].
Qed.

(** ** Start-up *)

(** X12.  When a required key is missing nothing else happens in the
    run: the session and the files are untouched, no service is asked,
    and the only thing on the page is the notice. *)
Theorem nothing_runs_without_keys `{PyLib} (i : inputs) (s : session_state)
    (fs : gmap pystr bytes) (key : pystr) (missing : list pystr) :
  missing_keys i.(cfg) = Ok (key :: missing) →
  run i s fs =
    (Raise StopException,
     {| session := s; files := fs;
        page := [StError (missing_message (key :: missing))];
        requests := [] |}).
Proof.
  intros Hkeys. rewrite missing_keys_spec in Hkeys. injection Hkeys as Hkeys.
  unfold run. rewrite script_eq. by rewrite Hkeys.
Qed.

(** X13.  When the persona or the facts cannot be loaded the exception
    is not caught: the run ends with it, before the log is created and
    with nothing on the page. *)
Theorem load_failure_ends_the_run `{PyLib} (i : inputs) (s : session_state)
    (fs : gmap pystr bytes) (msg : pystr) :
  missing_keys i.(cfg) = Ok [] →
  i.(load_data) = Raises msg →
  run i s fs =
    (Raise (Exception msg),
     {| session := s; files := fs; page := []; requests := [] |}).
Proof.
  intros Hkeys Hload. rewrite missing_keys_spec in Hkeys.
  injection Hkeys as Hkeys.
  unfold run. rewrite script_eq. by rewrite Hkeys, Hload.
Qed.

(** ** Notices *)

(** X14.  A script run puts at most one error notice on the page. *)
Theorem at_most_one_notice `{PyLib} (i : inputs) (s : session_state)
    (fs : gmap pystr bytes) :
  length (List.filter is_error (run i s fs).2.(page)) ≤ 1.
Proof.
  unfold run.
  set (w := {| session := s; files := fs; page := []; requests := [] |}).
  script_paths i w; simpl; try lia.
  - by apply (after_init_notices i w log).
  - by apply (after_init_notices i
                (with_session (set_messages (Some [system_message prompt])) w)
                [system_message prompt]).
Qed.

(** ** The session, from one run to the next *)

Lemma run_preserves_session_invariant `{PyLib} (i : inputs)
    (s : session_state) (fs : gmap pystr bytes) :
  session_invariant s → session_invariant (run i s fs).2.(session).
Proof.
  unfold run.
  set (w := {| session := s; files := fs; page := []; requests := [] |}).
  intros Hinv.
  assert (Hstep : ∀ (w0 : world) (log : list message) (key : Z),
            w0.(session).(messages) = Some log →
            default 0%Z w0.(session).(input_key) = key →
            (0 ≤ key ≤ Z.of_nat (replies log))%Z →
            session_invariant (after_init i w0).2.(session)).
  { intros w0 log key Hlog Hkey Hrange.
    destruct (after_init_session i w0 log Hlog) as (new & Hm & Hk & Hnew).
    unfold session_invariant. rewrite Hm, Hk, Hkey.
    eexists. split; [reflexivity|]. rewrite replies_app.
    destruct (after_init i w0).1 as [[]|[| |]]; lia. }
  script_paths i w; try exact Hinv.
  - unfold session_invariant in Hinv. simpl in Heqo0. rewrite Heqo0 in Hinv.
    destruct Hinv as (key & Hkey & Hrange).
    apply (Hstep w log key); [done| |done]. simpl. by rewrite Hkey.
  - unfold session_invariant in Hinv. simpl in Heqo0. rewrite Heqo0 in Hinv.
    subst s.
    by apply (Hstep _ [system_message prompt] 0%Z).
Qed.

(** X15.  In every reachable session: as long as there is no log
    nothing else is stored either, and once there is a log the counter
    of the audio widget is set, is not negative and does not exceed the
    number of replies in the log. *)
Theorem reachable_session_invariant `{PyLib} (s : session_state)
    (fs : gmap pystr bytes) :
  reachable s fs → session_invariant s.
Proof.
  induction 1 as [fs | s fs i r w _ IH Hrun]; [done|].
  apply (run_preserves_session_invariant i s fs) in IH.
  by rewrite Hrun in IH.
Qed.

Lemma reachable_session_invariant_witness : session_invariant stalled.
Proof.
  refine (@reachable_session_invariant example_lib stalled ∅ _).
  exact (@reachable_runs example_lib
           [spoken completion_down; spoken completion_down] opened ∅
           opened_reachable).
Defined.

(** ** Playback *)

(** X16.  The autoplay block plays a stored clip and discards it, so
    that running the block again plays nothing; an empty clip is neither
    played nor discarded. *)
Theorem autoplay_plays_once (w : world) :
  ∃ w1,
    autoplay w = (Ok tt, w1) ∧
    autoplay w1 = (Ok tt, w1) ∧
    match w.(session).(current_audio) with
    | Some (b :: data) =>
        w1.(page) = w.(page) ++ [StAudio (b :: data)] ∧
        w1.(session).(current_audio) = None
    | _ => w1 = w
    end.
Proof.
  exists (played w). rewrite !autoplay_eq. unfold played.
  destruct (current_audio (session w)) as [[|b data]|] eqn:E; simpl;
    rewrite ?E; done.
Qed.

(** X17.  The run that follows a whole turn, with nothing in the audio
    widget, plays the stored reply once and discards it; the log is
    left as it is. *)
Theorem next_run_plays_the_reply `{PyLib} (i : inputs) (s : session_state)
    (fs : gmap pystr bytes) (persona facts : json) (log : list message)
    (b : Byte.byte) (data : bytes) :
  missing_keys i.(cfg) = Ok [] →
  i.(load_data) = Returns (persona, facts) →
  i.(audio_value) = None →
  s.(messages) = Some log →
  s.(current_audio) = Some (b :: data) →
  (run i s fs).1 = Ok tt ∧
  (run i s fs).2.(page)
    = StAudio (b :: data)
        :: (if decide (1 < length log) then [ScrollScript] else []) ∧
  (run i s fs).2.(session).(current_audio) = None ∧
  (run i s fs).2.(session).(messages) = Some log.
Proof.
  intros Hkeys Hload Hidle Hlog Haudio. rewrite missing_keys_spec in Hkeys.
  injection Hkeys as Hkeys. unfold run. rewrite script_eq, Hkeys, Hload.
  simpl. rewrite Hlog.
  rewrite (after_init_idle i _ log) by done.
  unfold scrolled, played, keyed; simpl.
  destruct (input_key s); simpl; rewrite Haudio; simpl; rewrite Hlog;
    case_decide; simpl; by rewrite ?Hlog.
Qed.

(** ** A whole turn *)

(** X18.  When the three services answer, the pipeline appends the
    transcribed text as it came and the reply as it came, stores the
    audio chunks joined in order, sets the scroll flag, moves the
    counter of the audio widget by one, removes the temporary file and
    asks for a rerun, with nothing added to the page. *)
Theorem turn_succeeds (i : inputs) (w : world) (audio : upload)
    (t : transcription) (text : pystr) (log : list message)
    (bot_text : option pystr) (chunks : list bytes) (key : Z) :
  i.(audio_value) = Some audio →
  transcription_outcome i audio = Returns t →
  user_text_of t = Some text →
  has_speech (Some text) = true →
  w.(session).(messages) = Some log →
  w.(session).(input_key) = Some key →
  i.(svc).(complete) (log ++ [user_message text]) = Returns bot_text →
  i.(svc).(synthesize) bot_text = Returns chunks →
  pipeline i w =
    (Raise RerunException,
     {| session :=
          {| messages :=
               Some (log ++ [user_message text; assistant_message bot_text]);
             input_key := Some (key + 1)%Z;
             current_audio := Some (concat chunks);
             scroll_after_message := Some true |};
        files := delete i.(tmp_name) w.(files);
        page := w.(page);
        requests := w.(requests) ++ pipeline_order |}).
Proof.
  intros Haudio Hout Htext Hspeech Hlog Hkey Hdone Hsynth.
  rewrite (pipeline_eq i w log), Haudio, Hout, Htext, Hspeech by done.
  erewrite reply_step_spec by (simpl; reflexivity).
  rewrite Hdone, Hsynth. simpl. rewrite Hkey.
  unfold replied, set_input_key, set_current_audio,
    set_scroll_after_message, set_messages; simpl.
  by rewrite <- !app_assoc.
Qed.

(** ** The guard on the transcribed text *)

Lemma not_whitespace_only (text : pystr) :
  whitespace_only text = false ↔ ∃ c, c ∈ text ∧ isspace c = false.
Proof.
  unfold whitespace_only. induction text as [|c text IH]; simpl.
  - split; [discriminate|]. intros (c & Hc & _). by apply elem_of_nil in Hc.
  - destruct (isspace c) eqn:E; simpl.
    + rewrite IH. split; intros (c' & Hin & Hc').
      * exists c'. split; [by apply elem_of_cons; right | done].
      * apply elem_of_cons in Hin as [->|Hin]; [congruence|]. eauto.
    + split; [|done]. intros _. exists c. split; [by apply elem_of_cons; left|done].
Qed.

(** X19.  The pipeline goes past the guard of l. 667 exactly when the
    transcription has a text, and the text has a character that is not
    white space. *)
Theorem guard_passes_iff (user_text : option pystr) :
  has_speech user_text = true
  ↔ ∃ text, user_text = Some text ∧ ∃ c, c ∈ text ∧ isspace c = false.
Proof.
  destruct user_text as [text|].
  - split.
    + intros Hs. exists text. split; [done|]. apply not_whitespace_only.
      destruct (whitespace_only text) eqn:E; [|done].
      apply has_speech_whitespace in E. congruence.
    + intros (text' & [= <-] & Hw). apply not_whitespace_only in Hw.
      destruct (has_speech (Some text)) eqn:E; [done|].
      apply has_speech_whitespace in E. congruence.
  - split; [discriminate|]. by intros (text & [=] & _).
Qed.

(** ** The prompt *)



Lemma join_app (sep : pystr) (l1 l2 : list pystr) :
  l1 ≠ [] → l2 ≠ [] →
  join sep (l1 ++ l2) = join sep l1 ++ sep ++ join sep l2.
Proof.
  intros H1 H2. induction l1 as [|p l1 IH]; [done|].
  destruct l1 as [|q l1].
  - simpl. by destruct l2.
  - change (join sep ((p :: q :: l1) ++ l2))
      with (p ++ sep ++ join sep ((q :: l1) ++ l2)).
    rewrite IH by done.
    change (join sep (p :: q :: l1)) with (p ++ sep ++ join sep (q :: l1)).
    by rewrite <- !app_assoc.
Qed.

Lemma join_opening (sep a b : pystr) (lines closing : list pystr) :
  lines ≠ [] → closing ≠ [] →
  ∃ middle,
    join sep (([] :: (a ++ b) :: lines) ++ closing)
      = sep ++ a ++ middle ++ sep ++ join sep closing.
Proof.
  intros Hlines Hclosing.
  exists (b ++ sep ++ join sep lines).
  rewrite (join_app sep ([] :: (a ++ b) :: lines) closing) by done.
  destruct lines as [|l lines]; [done|].
  change (join sep ([] :: (a ++ b) :: l :: lines))
    with ([] ++ sep ++ (a ++ b) ++ sep ++ join sep (l :: lines)).
  simpl app at 1. by rewrite <- !app_assoc.
Qed.

(** X21.  Whatever the persona and the facts, a prompt that is built
    opens with the line "You are ..." and ends with the fixed policy:
    the loaded documents cannot remove or reorder the policy text. *)
Theorem prompt_ends_with_policy `{PyLib} (persona facts : json)
    (prompt : pystr) :
  system_prompt persona facts = Ok prompt →
  ∃ middle,
    prompt = LF :: lit "    You are " ++ middle ++ LF :: policy_block.
Proof.
  unfold system_prompt.
  destruct (persona_get persona "name" _) as [name|]; [|discriminate].
  destruct (persona_get persona "role" _) as [role|]; [|discriminate].
  destruct (persona_get persona "tone" _) as [tone|]; [|discriminate].
  destruct (persona_get persona "speaking_style" _) as [style|];
    [|discriminate].
  destruct (persona_get persona "context" _) as [context|]; [|discriminate].
  destruct (persona_get persona "instructions" _) as [instructions|];
    [|discriminate].
  unfold mbind at 1 2 3 4 5 6, result_bind.
  destruct (join_lines instructions) as [joined|]; [|discriminate].
  intros [= <-].
  unfold prompt_text.
  match goal with
  | |- context [join _ (([] :: (?a ++ ?b) :: ?lines) ++ ?closing)] =>
      destruct (join_opening [LF] a b lines closing) as [middle ->];
        [discriminate | intros [_ [=]]%app_eq_nil |]
  end.
  exists middle. reflexivity.
Qed.

(** ** Secrets and the environment *)

Lemma missing_of_filter (cfg : config) :
  missing_of cfg = List.filter (absent cfg) required.
Proof.
  unfold missing_of, append_if_not, required, absent; simpl List.filter.
  destruct (truthy (two_tier_lookup cfg OPENAI_API_KEY None));
    destruct (truthy (two_tier_lookup cfg ELEVENLABS_API_KEY None));
    destruct (truthy (two_tier_lookup cfg GROQ_API_KEY None));
    reflexivity.
Qed.

(** X22.  An empty value in the secrets store hides the environment:
    when the store holds the empty string for a required key, the script
    stops and names the key, whatever the environment variable of that
    name is. *)
Theorem empty_secret_hides_environment (cfg : config)
    (m : gmap pystr pystr) (key : pystr) (w : world) :
  cfg.(st_secrets) = Secrets m →
  m !! key = Some [] →
  key ∈ required →
  ∃ missing,
    key ∈ missing ∧
    validate_keys cfg w =
      (Raise StopException,
       {| session := w.(session); files := w.(files);
          page := w.(page) ++ [StError (missing_message missing)];
          requests := w.(requests) |}).
Proof.
  intros Hstore Hkey Hreq.
  assert (Hin : key ∈ missing_of cfg).
  { rewrite missing_of_filter. apply list_elem_of_In, filter_In.
    split; [by apply list_elem_of_In|].
    unfold absent, two_tier_lookup. by rewrite Hstore, Hkey. }
  exists (missing_of cfg). split; [done|].
  rewrite validate_keys_unfold.
  destruct (missing_of cfg); [by apply elem_of_nil in Hin | done].
Qed.

(** ** The page and the log *)

Lemma render_from_contents (last_idx i : Z) (after_user : bool)
    (msgs : list message) :
  follows_user after_user msgs = true →
  List.map bubble_content (render_from last_idx i msgs)
    = List.map content msgs.
Proof.
  revert i after_user. induction msgs as [|m msgs IH]; intros i b; [done|].
  simpl. destruct (role_of m); [discriminate| |].
  - intros Hrest. simpl. f_equal. by eapply IH.
  - intros [_ Hrest]%andb_true_iff.
    destruct (i =? last_idx)%Z; simpl; f_equal; by eapply IH.
Qed.

(** X23.  For the log of every reachable session the history shows the
    content of every message but the first, in the order of the log:
    every turn is on the page and the system prompt is not. *)
Theorem page_shows_every_turn `{PyLib} (s : session_state)
    (fs : gmap pystr bytes) (log : list message) :
  reachable s fs →
  s.(messages) = Some log →
  List.map bubble_content (render_history log) = List.map content (tail log).
Proof.
  intros Hreach Hlog.
  pose proof (reachable_invariant s fs Hreach) as Hinv.
  unfold log_invariant in Hinv. rewrite Hlog in Hinv.
  destruct Hinv as (prompt & rest & -> & Hrest).
  unfold render_history. case_decide as Hlen.
  - simpl. by eapply render_from_contents.
  - simpl in *. destruct rest; [done | simpl in Hlen; lia].
Qed.

(** ** The properties on the worked session *)

Lemma last_assistant_idx_found_witness :
  last_assistant_idx
    (opening_log ++ [user_message question]
       ++ assistant_message (Some answer) :: [user_message question])
  = 2%Z.
Proof.
  exact (last_assistant_idx_found (opening_log ++ [user_message question])
           [user_message question] (assistant_message (Some answer))
           eq_refl eq_refl).
Defined.

Lemma render_history_emphasises_last_witness :
  render_history
    ([system_message []; user_message question; assistant_message None;
      user_message question]
       ++ assistant_message (Some answer) :: [user_message question])
  = [MsgUser (Some question); MsgAssistantPrev None; MsgUser (Some question);
     MsgAssistantLatest (Some answer); MsgUser (Some question)].
Proof.
  refine (render_history_emphasises_last
            [system_message []; user_message question; assistant_message None;
             user_message question]
            [user_message question] (assistant_message (Some answer))
            eq_refl eq_refl _).
  simpl. lia.
Defined.

Lemma render_history_without_reply_witness :
  render_history [system_message []; user_message question]
  = [MsgUser (Some question)].
Proof.
  exact (render_history_without_reply
           [system_message []; user_message question] eq_refl).
Defined.

Lemma idle_run_is_quiet_witness :
  (@run example_lib idle opened ∅).2.(requests) = [] ∧
  (@run example_lib idle opened ∅).2.(files) = ∅ ∧
  (∀ log, opened.(messages) = Some log →
          (@run example_lib idle opened ∅).2.(session).(messages) = Some log).
Proof. exact (@idle_run_is_quiet example_lib idle opened ∅ eq_refl). Defined.

Lemma script_touches_only_temp_file_witness :
  (@run example_lib (spoken transcription_down) opened
     (<[lit "/tmp/other.wav" := clip]> ∅)).2.(files) !! lit "/tmp/other.wav"
  = (<[lit "/tmp/other.wav" := clip]> ∅ : gmap pystr bytes)
      !! lit "/tmp/other.wav".
Proof.
  refine (@script_touches_only_temp_file example_lib
            (spoken transcription_down) opened
            (<[lit "/tmp/other.wav" := clip]> ∅) (lit "/tmp/other.wav") _).
  vm_compute. discriminate.
Defined.

Lemma service_failures_are_caught_witness :
  (@run example_lib (spoken completion_down) new_session ∅).1 = Ok tt ∨
  (@run example_lib (spoken completion_down) new_session ∅).1
    = Raise RerunException.
Proof.
  exact (@service_failures_are_caught example_lib (spoken completion_down)
           new_session ∅ dan no_facts eq_refl eq_refl
           (or_intror eq_refl)).
Defined.

Lemma rerun_follows_whole_turn_witness :
  ∃ log text bot_text chunks,
    (opened.(messages) = Some log ∨
     opened.(messages) = None ∧
     ∃ persona facts prompt,
       (spoken all_up).(load_data) = Returns (persona, facts) ∧
       @system_prompt example_lib persona facts = Ok prompt ∧
       log = [system_message prompt]) ∧
    (@run example_lib (spoken all_up) opened ∅).2.(session).(messages)
      = Some (log ++ [user_message text; assistant_message bot_text]) ∧
    all_up.(complete) (log ++ [user_message text]) = Returns bot_text ∧
    all_up.(synthesize) bot_text = Returns chunks ∧
    (@run example_lib (spoken all_up) opened ∅).2.(session).(current_audio)
      = Some (concat chunks) ∧
    (@run example_lib (spoken all_up) opened ∅).2.(page) = [] ∧
    (@run example_lib (spoken all_up) opened ∅).2.(requests) = pipeline_order.
Proof.
  exact (@rerun_follows_whole_turn example_lib (spoken all_up) opened ∅
           eq_refl).
Defined.

Lemma input_key_advances_with_rerun_witness :
  (@run example_lib (spoken all_up) opened ∅).2.(session).(input_key)
  = Some (match (@run example_lib (spoken all_up) opened ∅).1 with
          | Raise RerunException => 0 + 1
          | _ => 0
          end)%Z.
Proof.
  exact (@input_key_advances_with_rerun example_lib (spoken all_up) opened ∅
           0%Z eq_refl).
Defined.

Lemma nothing_runs_without_keys_witness :
  @run example_lib unconfigured opened ∅ =
    (Raise StopException,
     {| session := opened; files := ∅;
        page := [StError
                   (missing_message [OPENAI_API_KEY; ELEVENLABS_API_KEY])];
        requests := [] |}).
Proof.
  exact (@nothing_runs_without_keys example_lib unconfigured opened ∅
           OPENAI_API_KEY [ELEVENLABS_API_KEY] eq_refl).
Defined.

Lemma load_failure_ends_the_run_witness :
  @run example_lib unloadable new_session ∅ =
    (Raise (Exception (lit "Expecting value: line 1 column 1 (char 0)")),
     {| session := new_session; files := ∅; page := []; requests := [] |}).
Proof.
  exact (@load_failure_ends_the_run example_lib unloadable new_session ∅
           (lit "Expecting value: line 1 column 1 (char 0)")
           eq_refl eq_refl).
Defined.

Lemma next_run_plays_the_reply_witness :
  (@run example_lib idle replied_session ∅).1 = Ok tt ∧
  (@run example_lib idle replied_session ∅).2.(page)
    = StAudio (Byte.x49 :: [Byte.x44; Byte.x33])
        :: (if decide (1 < length (opening_log ++ exchange (question, Some answer)))
            then [ScrollScript] else []) ∧
  (@run example_lib idle replied_session ∅).2.(session).(current_audio)
    = None ∧
  (@run example_lib idle replied_session ∅).2.(session).(messages)
    = Some (opening_log ++ exchange (question, Some answer)).
Proof.
  exact (@next_run_plays_the_reply example_lib idle replied_session ∅
           dan no_facts (opening_log ++ exchange (question, Some answer))
           Byte.x49 [Byte.x44; Byte.x33]
           eq_refl eq_refl eq_refl eq_refl eq_refl).
Defined.

Lemma turn_succeeds_witness :
  pipeline (spoken all_up) (blank_world opened) =
    (Raise RerunException,
     {| session :=
          {| messages :=
               Some (opening_log
                       ++ [user_message question;
                           assistant_message (Some answer)]);
             input_key := Some (0 + 1)%Z;
             current_audio := Some (concat speech);
             scroll_after_message := Some true |};
        files := delete tmp_wav ∅;
        page := [];
        requests := [] ++ pipeline_order |}).
Proof.
  exact (turn_succeeds (spoken all_up) (blank_world opened) recording
           (Plain question) question opening_log (Some answer) speech 0%Z
           eq_refl eq_refl eq_refl eq_refl opened_messages eq_refl
           eq_refl eq_refl).
Defined.

Lemma prompt_ends_with_policy_witness :
  ∃ middle,
    default [] (content (default (system_message []) (head opening_log)))
    = LF :: lit "    You are " ++ middle ++ LF :: policy_block.
Proof.
  exact (@prompt_ends_with_policy example_lib dan no_facts
           (default [] (content (default (system_message [])
                                   (head opening_log))))
           eq_refl).
Defined.

Lemma empty_secret_hides_environment_witness :
  ∃ missing,
    GROQ_API_KEY ∈ missing ∧
    validate_keys blanked (blank_world new_session) =
      (Raise StopException,
       {| session := new_session; files := ∅;
          page := [] ++ [StError (missing_message missing)];
          requests := [] |}).
Proof.
  refine (empty_secret_hides_environment blanked
            (<[GROQ_API_KEY := []]> ∅) GROQ_API_KEY (blank_world new_session)
            eq_refl eq_refl _).
  unfold required. apply elem_of_cons. right. apply elem_of_cons. right.
  apply elem_of_cons. by left.
Defined.

Lemma replied_session_reachable : @reachable example_lib replied_session ∅.
Proof.
  exact (@reachable_runs example_lib [spoken all_up] opened ∅
           opened_reachable).
Qed.

Lemma page_shows_every_turn_witness :
  List.map bubble_content
    (render_history (opening_log ++ exchange (question, Some answer)))
  = List.map content (tail (opening_log ++ exchange (question, Some answer))).
Proof.
  exact (@page_shows_every_turn example_lib replied_session ∅
           (opening_log ++ exchange (question, Some answer))
           replied_session_reachable eq_refl).
Defined.

(** ** The temporary file, over a whole run *)

Lemma after_init_temp_file (i : inputs) (w : world) (log : list message)
    (audio : upload) :
  w.(session).(messages) = Some log →
  i.(audio_value) = Some audio →
  (after_init i w).2.(files) =
    match transcription_outcome i audio with
    | Returns _ => delete i.(tmp_name) w.(files)
    | Raises _ => <[i.(tmp_name) := recorded audio]> w.(files)
    end.
Proof.
  intros Hlog Haudio.
  after_init_paths i log; simpl.
  all: try discriminate.
  all: match goal with H : Some _ = Some _ |- _ => injection H as <- end.
  all: match goal with H : transcription_outcome _ _ = _ |- _ => rewrite H end.
  all: unfold scrolled, played, unheard, heard; simpl.
  all: by repeat case_match.
Qed.

(** The world a script run hands to [after_init], when it gets there. *)
Lemma script_reaches_pipeline `{PyLib} (i : inputs) (w : world)
    (persona facts : json) :
  missing_keys i.(cfg) = Ok [] →
  i.(load_data) = Returns (persona, facts) →
  is_Some w.(session).(messages) ∨ valid_persona persona = true →
  ∃ w0 log,
    script i w = after_init i w0 ∧
    w0.(session).(messages) = Some log ∧
    w0.(files) = w.(files) ∧ w0.(page) = w.(page) ∧
    w0.(requests) = w.(requests).
Proof.
  intros Hkeys Hload Hlog. rewrite missing_keys_spec in Hkeys.
  injection Hkeys as Hkeys. rewrite script_eq, Hkeys, Hload.
  destruct (messages (session w)) as [log|] eqn:Hm.
  - by exists w, log.
  - destruct Hlog as [[log [=]]|Hvalid].
    destruct (system_prompt_valid persona facts Hvalid) as [prompt ->].
    by eexists _, [system_message prompt].
Qed.

(** X24.  After a script run whose transcription returned, the
    temporary file is gone: the files are those the run found, without
    the name of the temporary file. *)
Theorem temp_file_gone_after_transcription `{PyLib} (i : inputs)
    (s : session_state) (fs : gmap pystr bytes) (persona facts : json)
    (audio : upload) (t : transcription) :
  missing_keys i.(cfg) = Ok [] →
  i.(load_data) = Returns (persona, facts) →
  is_Some s.(messages) ∨ valid_persona persona = true →
  i.(audio_value) = Some audio →
  transcription_outcome i audio = Returns t →
  (run i s fs).2.(files) = delete i.(tmp_name) fs.
Proof.
  intros Hkeys Hload Hlog Haudio Hout. unfold run.
  destruct (script_reaches_pipeline i
              {| session := s; files := fs; page := []; requests := [] |}
              persona facts Hkeys Hload Hlog)
    as (w0 & log & -> & Hm & Hfs & _).
  by rewrite (after_init_temp_file i w0 log audio), Hout, Hfs.
Qed.

(** X25.  After a script run whose transcription step raised, the
    temporary file is on the file system, holding what was read of the
    recording. *)
Theorem temp_file_stays_after_failure `{PyLib} (i : inputs)
    (s : session_state) (fs : gmap pystr bytes) (persona facts : json)
    (audio : upload) (msg : pystr) :
  missing_keys i.(cfg) = Ok [] →
  i.(load_data) = Returns (persona, facts) →
  is_Some s.(messages) ∨ valid_persona persona = true →
  i.(audio_value) = Some audio →
  transcription_outcome i audio = Raises msg →
  (run i s fs).2.(files) = <[i.(tmp_name) := recorded audio]> fs.
Proof.
  intros Hkeys Hload Hlog Haudio Hout. unfold run.
  destruct (script_reaches_pipeline i
              {| session := s; files := fs; page := []; requests := [] |}
              persona facts Hkeys Hload Hlog)
    as (w0 & log & -> & Hm & Hfs & _).
  by rewrite (after_init_temp_file i w0 log audio), Hout, Hfs.
Qed.

Lemma temp_file_gone_after_transcription_witness :
  (@run example_lib (spoken completion_down) new_session
     (<[tmp_wav := clip]> ∅)).2.(files)
  = delete tmp_wav (<[tmp_wav := clip]> ∅).
Proof.
  exact (@temp_file_gone_after_transcription example_lib
           (spoken completion_down) new_session (<[tmp_wav := clip]> ∅)
           dan no_facts recording (Plain question)
           eq_refl eq_refl (or_intror eq_refl) eq_refl eq_refl).
Defined.

Lemma temp_file_stays_after_failure_witness :
  (@run example_lib (spoken transcription_down) new_session ∅).2.(files)
  = <[tmp_wav := clip]> ∅.
Proof.
  exact (@temp_file_stays_after_failure example_lib
           (spoken transcription_down) new_session ∅ dan no_facts recording
           (lit "Connection error.")
           eq_refl eq_refl (or_intror eq_refl) eq_refl eq_refl).
Defined.

(** ** The scroll flag *)

Lemma after_init_ignores_scroll_flag (i : inputs) (w : world)
    (log : list message) (v : option bool) :
  w.(session).(messages) = Some log →
  let w' := with_session (set_scroll_after_message v) w in
  (after_init i w').1 = (after_init i w).1 ∧
  (after_init i w').2.(page) = (after_init i w).2.(page) ∧
  (after_init i w').2.(files) = (after_init i w).2.(files) ∧
  (after_init i w').2.(requests) = (after_init i w).2.(requests) ∧
  (after_init i w').2.(session).(messages)
    = (after_init i w).2.(session).(messages) ∧
  (after_init i w').2.(session).(input_key)
    = (after_init i w).2.(session).(input_key) ∧
  (after_init i w').2.(session).(current_audio)
    = (after_init i w).2.(session).(current_audio).
Proof.
  destruct w as [[msgs key clip0 flag] fs pg rq]. simpl. intros ->.
  unfold with_session; simpl.
  rewrite !(after_init_eq i _ log) by done.
  rewrite !(pipeline_eq i _ log) by (simpl; by rewrite keyed_messages).
  assert (Hclose : ∀ (k : option Z) (f1 f2 : option bool)
                     (msgs : option (list message)) (c : option bytes)
                     fs' pg' rq',
    let a := scrolled (played
               {| session := {| messages := msgs; input_key := k;
                                current_audio := c;
                                scroll_after_message := f1 |};
                  files := fs'; page := pg'; requests := rq' |}) in
    let b := scrolled (played
               {| session := {| messages := msgs; input_key := k;
                                current_audio := c;
                                scroll_after_message := f2 |};
                  files := fs'; page := pg'; requests := rq' |}) in
    a.(page) = b.(page) ∧ a.(files) = b.(files) ∧
    a.(requests) = b.(requests) ∧
    a.(session).(messages) = b.(session).(messages) ∧
    a.(session).(input_key) = b.(session).(input_key) ∧
    a.(session).(current_audio) = b.(session).(current_audio)).
  { intros k f1 f2 msgs c fs' pg' rq'. unfold scrolled, played; simpl.
    destruct c as [[|b0 data]|]; simpl; destruct msgs as [l|]; simpl;
      try done; by case_decide. }
  destruct (audio_value i) as [audio|].
  2: { split; [done|]. unfold keyed; simpl. destruct key; apply Hclose. }
  destruct (transcription_outcome i audio) as [t|msg].
  2: { split; [done|]. unfold keyed, unheard; simpl.
       destruct key; apply Hclose. }
  destruct (user_text_of t) as [text|].
  2: { split; [done|]. unfold keyed, heard; simpl. destruct key; apply Hclose. }
  destruct (has_speech (Some text)).
  2: { split; [done|]. unfold keyed, heard; simpl. destruct key; apply Hclose. }
  erewrite !reply_step_spec by (simpl; rewrite ?keyed_messages; reflexivity).
  destruct (complete (svc i) _) as [bot_text|msg'].
  2: { split; [done|]. unfold keyed, heard; simpl. destruct key; apply Hclose. }
  destruct (synthesize (svc i) bot_text) as [chunks|msg'].
  2: { split; [done|]. unfold keyed, heard, replied; simpl.
       destruct key; apply Hclose. }
  unfold keyed; simpl. by destruct key.
Qed.

(** X26.  The flag [scroll_after_message] decides nothing: whatever its
    value when a script run starts, the run ends the same way, shows the
    same page, asks the same services and leaves the same log, counter,
    stored audio and files. *)
Theorem scroll_flag_decides_nothing `{PyLib} (i : inputs) (s : session_state)
    (fs : gmap pystr bytes) (v : option bool) :
  (run i (set_scroll_after_message v s) fs).1 = (run i s fs).1 ∧
  (run i (set_scroll_after_message v s) fs).2.(page) = (run i s fs).2.(page) ∧
  (run i (set_scroll_after_message v s) fs).2.(files)
    = (run i s fs).2.(files) ∧
  (run i (set_scroll_after_message v s) fs).2.(requests)
    = (run i s fs).2.(requests) ∧
  (run i (set_scroll_after_message v s) fs).2.(session).(messages)
    = (run i s fs).2.(session).(messages) ∧
  (run i (set_scroll_after_message v s) fs).2.(session).(input_key)
    = (run i s fs).2.(session).(input_key) ∧
  (run i (set_scroll_after_message v s) fs).2.(session).(current_audio)
    = (run i s fs).2.(session).(current_audio).
Proof.
  unfold run. rewrite !script_eq. simpl.
  destruct (missing_of (cfg i)); [|done].
  destruct (load_data i) as [[persona facts]|msg]; [|done].
  destruct (messages s) as [log|] eqn:Hlog.
  - exact (after_init_ignores_scroll_flag i
             {| session := s; files := fs; page := []; requests := [] |}
             log v Hlog).
  - destruct (system_prompt persona facts) as [prompt|e]; [|done].
    exact (after_init_ignores_scroll_flag i
             (with_session (set_messages (Some [system_message prompt]))
                {| session := s; files := fs; page := [];
                   requests := [] |})
             [system_message prompt] v eq_refl).
Qed.
